(** * DataStore: a namespacing layer over a sharded, disk-backed cache

    Shallow embedding of [datastore/DataStore.py].  The class wraps a
    [diskcache.FanoutCache]; the wrapper's methods are embedded one by one
    in [Module DataStore], over a small model of the engine in
    [Module FanoutCache]. *)

From Stdlib Require Import ZArith QArith Lia String Ascii List Bool.
From stdpp Require Import base option list strings gmap.

Open Scope string_scope.
Open Scope list_scope.
Open Scope Z_scope.

(** ** Python values, exceptions and outcomes *)

(** Stored values.  Only [None] is ever produced by the wrapper itself (the
    default of [get]); the other constructors stand for caller data. *)
Inductive pyval :=
| PNone
| PBool (b : bool)
| PInt (z : Z)
| PStr (s : string).

(** A key element: a [str] or a number.  An [int] stands for [float] as well:
    neither has a [startswith] method and neither can be joined by
    [str.join]. *)
Inductive elt :=
| EStr (s : string)
| ENum (z : Z).

#[global] Instance elt_eq_dec : EqDecision elt.
Proof. solve_decision. Defined.

(** The exceptions the modelled code can raise. *)
Inductive exn :=
| IndexError                    (* args[0] on an empty tuple *)
| AttributeError                (* no startswith on a number, no close on None *)
| TypeError                     (* str.join on a number; call of a non-callable *)
| KeyError (k : elt)            (* raised by delete and by item access *)
| ZeroDivisionError             (* FanoutCache(..., shards=0) *)
| Exception (msg : string).

Inductive outcome (A : Type) :=
| Ret (a : A)
| Exc (e : exn).
Arguments Ret {A} a.
Arguments Exc {A} e.

#[global] Instance outcome_ret : MRet outcome := @Ret.
#[global] Instance outcome_bind : MBind outcome := fun A B f m =>
  match m with
  | Ret a => f a
  | Exc e => Exc e
  end.

#[global] Instance outcome_fmap : FMap outcome := fun A B f m =>
  match m with
  | Ret a => Ret (f a)
  | Exc e => Exc e
  end.

Definition raises {A} (o : outcome A) : bool :=
  match o with Ret _ => false | Exc _ => true end.

(** ** Python string primitives *)

(** [s.startswith(p)]. *)
Definition startswith (s p : string) : bool := String.prefix p s.

(** [s[n:]]. *)
Definition slice_from (n : nat) (s : string) : string :=
  String.substring n (String.length s - n) s.

(** [x.startswith(p)] for a key element: numbers have no such method. *)
Definition elt_startswith (x : elt) (p : string) : outcome bool :=
  match x with
  | EStr s => Ret (startswith s p)
  | ENum _ => Exc AttributeError
  end.

(** The items of a sequence as strings, if all of them are. *)
Fixpoint all_str (l : list elt) : option (list string) :=
  match l with
  | [] => Some []
  | EStr s :: l' => cons s <$> all_str l'
  | ENum _ :: _ => None
  end.

(** [delim.join(elts)]: a [TypeError] when an item is not a [str]. *)
Definition str_join (delim : string) (elts : list elt) : outcome string :=
  match all_str elts with
  | Some ss => Ret (String.concat delim ss)
  | None => Exc TypeError
  end.

(** Truthiness of an optional number: [None], [0] and [0.0] are falsy. *)
Definition truthyZ (o : option Z) : bool :=
  match o with
  | None => false
  | Some z => negb (z =? 0)
  end.

(** [a or b] on optional numbers. *)
Definition py_or (a b : option Z) : option Z :=
  if truthyZ a then a else b.

(** ** The storage engine

    [diskcache.FanoutCache] is an external collaborator; the wrapper relies
    on the following of its behaviour, which is what this model keeps:
    - a cache lives on disk under its [directory], one sub-directory per
      shard ([000], [001], ...); a key is routed to shard
      [hash key mod count];
    - two cache objects built on one directory see the same shards;
    - a row holds a value, an absolute expiration time and a tag; [set] and
      [add] take [expire] as seconds counted from the call;
    - a row whose expiration time has passed is invisible to [get],
      membership, item access and item deletion, but is still listed by
      iteration and counted by [len] until it is purged.
    Size-limit eviction, timeouts and the [read] and [retry] flags are not
    modelled.  Neither is the cull that ends each write of the engine: there
    [set], and [add] when it writes, purge from the shard written rows whose
    expiration time is before the time of the call; here such rows stay
    stored, invisible to [get], membership, item access and deletion as they
    were. *)

Record row := {
  r_value : pyval;
  r_expire_time : option Z;
  r_tag : option string
}.

(** The rows of one shard, in rowid order. *)
Abbreviation shard := (list (elt * row)).

(** The disk: shard [i] of the cache stored under [dir] is at [(dir, i)];
    a missing entry is an empty shard. *)
Abbreviation disk := (gmap (string * nat) shard).

(** What the engine leaves abstract here: its key hash, the on-disk size
    reported by [volume] and the warnings reported by [check]. *)
Record engine := {
  hash : elt -> nat;
  volume_of : list shard -> Z;
  check_of : bool -> list shard -> list string
}.

(** A [FanoutCache] object. *)
Record handle := {
  directory : string;
  count : nat;
  h_timeout : Q;
  h_tag_index : bool;
  is_open : bool
}.

Definition with_open (b : bool) (h : handle) : handle :=
  {| directory := directory h; count := count h; h_timeout := h_timeout h;
     h_tag_index := h_tag_index h; is_open := b |}.

(** What [get] returns, by its [expire_time] and [tag] flags. *)
Inductive got :=
| Plain (v : pyval)
| WithExpire (v : pyval) (t : option Z)
| WithTag (v : pyval) (g : option string)
| Triple (v : pyval) (t : option Z) (g : option string).

Section Assoc.
Context {V : Type}.

Fixpoint assoc_lookup (k : elt) (s : list (elt * V)) : option V :=
  match s with
  | [] => None
  | (k', r) :: s' => if decide (k = k') then Some r else assoc_lookup k s'
  end.

(** Overwrite in place when the key is there, append otherwise. *)
Fixpoint assoc_store (k : elt) (r : V) (s : list (elt * V)) : list (elt * V) :=
  match s with
  | [] => [(k, r)]
  | (k', r') :: s' =>
      if decide (k = k') then (k, r) :: s' else (k', r') :: assoc_store k r s'
  end.

(** Drop every row stored under the key. *)
Fixpoint assoc_remove (k : elt) (s : list (elt * V)) : list (elt * V) :=
  match s with
  | [] => []
  | (k', r') :: s' =>
      if decide (k = k') then assoc_remove k s'
      else (k', r') :: assoc_remove k s'
  end.

(** [dict(pairs)]. *)
Definition dict_of (pairs : list (elt * V)) : list (elt * V) :=
  fold_left (fun d kv => assoc_store kv.1 kv.2 d) pairs [].
End Assoc.

Module FanoutCache.
Section Ops.
Variable E : engine.

(** [FanoutCache(directory, shards=..., timeout=..., tag_index=...)]: the
    size limit is divided by [shards]; the shard caches are opened. *)
Definition create (dir : string) (shards : nat) (timeout : Q)
    (tag_index : bool) : outcome handle :=
  if (shards =? 0)%nat then Exc ZeroDivisionError
  else Ret {| directory := dir; count := shards; h_timeout := timeout;
              h_tag_index := tag_index; is_open := true |}.

Definition index (h : handle) (k : elt) : nat := (hash E k mod count h)%nat.

Definition rows (d : disk) (h : handle) (i : nat) : shard :=
  default [] (d !! (directory h, i)).

Definition put_rows (d : disk) (h : handle) (i : nat) (s : shard) : disk :=
  <[(directory h, i) := s]> d.

Definition shards (d : disk) (h : handle) : list shard :=
  map (rows d h) (seq 0 (count h)).

(** [expire_time IS NULL OR expire_time > now]. *)
Definition live (now : Z) (r : row) : bool :=
  match r_expire_time r with
  | None => true
  | Some t => now <? t
  end.

(** The row stored under a key, in the shard the key is routed to. *)
Definition row_of (d : disk) (h : handle) (k : elt) : option row :=
  assoc_lookup k (rows d h (index h k)).

(** The same, as the reading operations see it: a row whose time has
    passed is not found. *)
Definition find (now : Z) (d : disk) (h : handle) (k : elt) : option row :=
  match row_of d h k with
  | Some r => if live now r then Some r else None
  | None => None
  end.

Definition shape (expire_time tag : bool) (v : pyval) (t : option Z)
    (g : option string) : got :=
  match expire_time, tag with
  | true, true => Triple v t g
  | true, false => WithExpire v t
  | false, true => WithTag v g
  | false, false => Plain v
  end.

(** [cache.get(key, default=..., expire_time=..., tag=...)]. *)
Definition get (now : Z) (d : disk) (h : handle) (k : elt)
    (default : pyval) (expire_time tag : bool) : got :=
  match find now d h k with
  | Some r => shape expire_time tag (r_value r) (r_expire_time r) (r_tag r)
  | None => shape expire_time tag default None None
  end.

(** [key in cache]. *)
Definition contains (now : Z) (d : disk) (h : handle) (k : elt) : bool :=
  match find now d h k with Some _ => true | None => false end.

(** [cache[key]]. *)
Definition getitem (now : Z) (d : disk) (h : handle) (k : elt)
    : outcome pyval :=
  match find now d h k with
  | Some r => Ret (r_value r)
  | None => Exc (KeyError k)
  end.

(** [cache.set(key, value, expire=..., tag=...)]: the row is overwritten in
    place or appended.  The cull that follows in the engine is left out, see
    the head of this section. *)
Definition set (now : Z) (d : disk) (h : handle) (k : elt) (v : pyval)
    (expire : option Z) (tag : option string) : disk :=
  let r := {| r_value := v; r_expire_time := Z.add now <$> expire;
              r_tag := tag |} in
  put_rows d h (index h k) (assoc_store k r (rows d h (index h k))).

(** [cache.add(...)]: writes unless a live row is there; like [set], without
    the cull that follows a write in the engine. *)
Definition add (now : Z) (d : disk) (h : handle) (k : elt) (v : pyval)
    (expire : option Z) (tag : option string) : bool * disk :=
  if contains now d h k then (false, d) else (true, set now d h k v expire tag).

(** [del cache[key]]. *)
Definition delitem (now : Z) (d : disk) (h : handle) (k : elt)
    : outcome disk :=
  if contains now d h k
  then Ret (put_rows d h (index h k) (assoc_remove k (rows d h (index h k))))
  else Exc (KeyError k).

(** [list(cache)]: the shards chained in order. *)
Definition iter (d : disk) (h : handle) : list elt :=
  flat_map (map fst) (shards d h).

(** [len(cache)]. *)
Definition len (d : disk) (h : handle) : nat :=
  list_sum (map (@length _) (shards d h)).

(** Rewrite every shard of the handle with [f]. *)
Definition map_shards (f : shard -> shard) (d : disk) (h : handle) : disk :=
  fold_right (fun i d' => put_rows d' h i (f (rows d h i))) d (seq 0 (count h)).

(** [cache.clear()]. *)
Definition clear (d : disk) (h : handle) : nat * disk :=
  (len d h, map_shards (fun _ => []) d h).

Definition has_tag (tag : string) (kr : elt * row) : bool :=
  match r_tag kr.2 with
  | Some g => String.eqb g tag
  | None => false
  end.

(** [cache.evict(tag)]. *)
Definition evict (d : disk) (h : handle) (tag : string) : nat * disk :=
  let d' := map_shards (List.filter (fun kr => negb (has_tag tag kr))) d h in
  ((len d h - len d' h)%nat, d').

Definition expired (now : Z) (kr : elt * row) : bool :=
  match r_expire_time kr.2 with
  | Some t => t <? now
  | None => false
  end.

(** [cache.expire()]: purge the rows whose time has passed. *)
Definition expire (now : Z) (d : disk) (h : handle) : nat * disk :=
  let d' := map_shards (List.filter (fun kr => negb (expired now kr))) d h in
  ((len d h - len d' h)%nat, d').

(** [cache.check(fix=...)] and [cache.volume()]. *)
Definition check (fix_ : bool) (d : disk) (h : handle) : list string :=
  check_of E fix_ (shards d h).

Definition volume (d : disk) (h : handle) : Z :=
  volume_of E (shards d h).
End Ops.
End FanoutCache.

(** ** The DataStore object and its world *)

(** The attributes of a [DataStore] instance.  [name] and [delim] are class
    attributes, overridden by sub-classes; [cache] is [None] until
    [init_cache] has run. *)
Module Attr.
Record t := {
  name : string;
  delim : string;
  cache_path : string;
  shards : nat;
  timeout : Q;
  expire : option Z;
  tag_index : bool;
  cache : option handle
}.

Definition with_cache (c : option handle) (self : t) : t :=
  {| name := name self; delim := delim self; cache_path := cache_path self;
     shards := shards self; timeout := timeout self; expire := expire self;
     tag_index := tag_index self; cache := c |}.
End Attr.

(** The state a method runs in: the disk and the object. *)
Record world := {
  disk_of : disk;
  self_of : Attr.t
}.

(** A method body: it returns or raises, and leaves a world either way. *)
Definition M (A : Type) : Type := world -> outcome A * world.

#[global] Instance M_ret : MRet M := fun A a w => (Ret a, w).
#[global] Instance M_bind : MBind M := fun A B f m w =>
  match m w with
  | (Ret a, w') => f a w'
  | (Exc e, w') => (Exc e, w')
  end.

Definition raise {A} (e : exn) : M A := fun w => (Exc e, w).

Definition lift {A} (o : outcome A) : M A := fun w => (o, w).

Definition ask : M Attr.t := fun w => (Ret (self_of w), w).

Definition read_disk : M disk := fun w => (Ret (disk_of w), w).

Definition write_disk (d : disk) : M unit := fun w =>
  (Ret tt, {| disk_of := d; self_of := self_of w |}).

Definition set_cache (c : option handle) : M unit := fun w =>
  (Ret tt,
   {| disk_of := disk_of w; self_of := Attr.with_cache c (self_of w) |}).

(** [self.cache.<op>(...)]: an [AttributeError] on [None]; otherwise the
    engine opens its connections for the call and keeps them open. *)
Definition on_cache : M handle :=
  self ← ask;
  match Attr.cache self with
  | None => raise AttributeError
  | Some h => set_cache (Some (with_open true h));; mret (with_open true h)
  end.

Definition when (b : bool) (m : M unit) : M unit := if b then m else mret tt.

(** A key as the callers give it: a [list] or [tuple] of elements, or a
    single [str] or number used as it is. *)
Inductive key_arg :=
| KSeq (l : list elt)
| KOne (e : elt).

#[global] Instance key_arg_eq_dec : EqDecision key_arg.
Proof. solve_decision. Defined.

(** The [match_elts] argument of [get_startswith]: as above, or an object
    of any other type. *)
Inductive match_arg :=
| MKey (k : key_arg)
| MOther.

(** What [makey] returns: the element list ([as_tuple]) or the joined key. *)
Inductive made :=
| Elts (l : list elt)
| Joined (s : string).

(** One entry of the [matches] list of [get_startswith]. *)
Inductive match_item :=
| OnlyKey (k : string)
| KeyValue (k : string) (v : pyval).

(** What [get_startswith] returns: the [matches] list, or [dict(matches)]. *)
Inductive matches :=
| Matches (l : list match_item)
| MatchDict (d : list (elt * pyval)).

(** What [items] returns: the list of pairs, or the dict made of it. *)
Inductive pairs :=
| Pairs (l : list (elt * got))
| PairDict (d : list (elt * got)).

Definition pairs_of (l : list match_item) : list (elt * pyval) :=
  omap (fun m => match m with
                 | KeyValue k v => Some (EStr k, v)
                 | OnlyKey _ => None
                 end) l.

Definition keys_of (l : list match_item) : list string :=
  map (fun m => match m with KeyValue k _ => k | OnlyKey k => k end) l.

Module DataStore.
Section Methods.
Variable E : engine.

(** The list [makey] joins: [self.name] first, unless the name is empty
    or the first argument already starts with name and delimiter.  The
    test for an empty name comes first and short-circuits. *)
Definition elts_of (self : Attr.t) (args : list elt) : outcome (list elt) :=
  if String.eqb (Attr.name self) "" then Ret args
  else match args with
       | [] => Exc IndexError
       | a :: _ =>
           b ← elt_startswith a (Attr.name self +:+ Attr.delim self);
           Ret (if b : bool then args else EStr (Attr.name self) :: args)
       end.

Definition makey (self : Attr.t) (args : list elt) (as_tuple : bool)
    : outcome made :=
  elts ← elts_of self args;
  if as_tuple then Ret (Elts elts)
  else Joined <$> str_join (Attr.delim self) elts.

(** [makey] with [as_tuple] left at [False], as the other methods call it. *)
Definition makey_str (self : Attr.t) (args : list elt) : outcome string :=
  elts ← elts_of self args;
  str_join (Attr.delim self) elts.

(** The first lines of [get], [set], [add] and [delete]: a list or tuple
    is encoded, anything else is the key. *)
Definition encode (self : Attr.t) (key : key_arg) : outcome elt :=
  match key with
  | KSeq l => EStr <$> makey_str self l
  | KOne e => Ret e
  end.

Definition close : M unit :=
  self ← ask;
  match Attr.cache self with
  | None => raise AttributeError
  | Some h => set_cache (Some (with_open false h))
  end.

Definition evict (tag : string) : M nat :=
  h ← on_cache;
  d ← read_disk;
  write_disk (FanoutCache.evict d h tag).2;;
  close;;
  mret (FanoutCache.evict d h tag).1.

(** The body of the [expire] method.  On an instance the name [expire]
    finds the attribute stored by [__init__] first, see [call_expire]. *)
Definition expire (now : Z) : M nat :=
  h ← on_cache;
  d ← read_disk;
  write_disk (FanoutCache.expire now d h).2;;
  close;;
  mret (FanoutCache.expire now d h).1.

(** [store.expire()]: the instance attribute hides the method, and the
    number or [None] found there cannot be called. *)
Definition call_expire : M nat := raise TypeError.

Definition check (fix_ : bool) : M (list string) :=
  h ← on_cache;
  d ← read_disk;
  close;;
  mret (FanoutCache.check E fix_ d h).

Definition volume : M Z :=
  h ← on_cache;
  d ← read_disk;
  close;;
  mret (FanoutCache.volume E d h).

Definition get (now : Z) (key : key_arg) (default : pyval)
    (expire_time tag close_ : bool) : M got :=
  self ← ask;
  k ← lift (encode self key);
  h ← on_cache;
  d ← read_disk;
  when close_ close;;
  mret (FanoutCache.get E now d h k default expire_time tag).

(** The loop of [items]: [self.get(key, close=False)] for every key. *)
Fixpoint items_loop (now : Z) (keys : list elt) : M (list (elt * got)) :=
  match keys with
  | [] => mret []
  | key :: rest =>
      v ← get now (KOne key) PNone false false false;
      l ← items_loop now rest;
      mret ((key, v) :: l)
  end.

Definition items (now : Z) (as_dict : bool) : M pairs :=
  h ← on_cache;
  d ← read_disk;
  l ← items_loop now (FanoutCache.iter d h);
  close;;
  mret (if as_dict then PairDict (dict_of l) else Pairs l).

(** The loop of [get_startswith] over [list(self.cache)]: a key that is
    a number has no [startswith]; [self.cache[key]] raises on a row that
    is listed but no longer live. *)
Fixpoint scan (now : Z) (d : disk) (h : handle) (match_key : string)
    (keys_only suffix_keys : bool) (keys : list elt)
    : outcome (list match_item) :=
  match keys with
  | [] => Ret []
  | ENum _ :: _ => Exc AttributeError
  | EStr s :: rest =>
      if startswith s match_key then
        let matched_key :=
          if suffix_keys then slice_from (String.length match_key) s else s in
        item ← (if keys_only then Ret (OnlyKey matched_key)
                 else KeyValue matched_key
                        <$> FanoutCache.getitem E now d h (EStr s));
        l ← scan now d h match_key keys_only suffix_keys rest;
        Ret (item :: l)
      else scan now d h match_key keys_only suffix_keys rest
  end.

Definition get_startswith (now : Z) (match_elts : match_arg)
    (match_part as_dict keys_only suffix_keys : bool) : M matches :=
  match match_elts with
  | MOther => mret (Matches [])
  | MKey k =>
      self ← ask;
      match_key ← lift (makey_str self
                          match k with KSeq l => l | KOne e => [e] end);
      let match_key :=
        if match_part then match_key else match_key +:+ Attr.delim self in
      h ← on_cache;
      d ← read_disk;
      l ← lift (scan now d h match_key keys_only suffix_keys
                  (FanoutCache.iter d h));
      close;;
      mret (if as_dict && negb keys_only
            then MatchDict (dict_of (pairs_of l)) else Matches l)
  end.

Definition set (now : Z) (key : key_arg) (value : pyval)
    (expire : option Z) (tag : option string) (close_ : bool) : M unit :=
  self ← ask;
  k ← lift (encode self key);
  let expire := py_or expire (Attr.expire self) in
  h ← on_cache;
  d ← read_disk;
  write_disk (FanoutCache.set E now d h k value expire tag);;
  when close_ close.

Definition add (now : Z) (key : key_arg) (value : pyval)
    (expire : option Z) (tag : option string) (close_ : bool) : M unit :=
  self ← ask;
  k ← lift (encode self key);
  let expire := py_or expire (Attr.expire self) in
  h ← on_cache;
  d ← read_disk;
  write_disk (FanoutCache.add E now d h k value expire tag).2;;
  when close_ close.



Definition delete (now : Z) (key : key_arg) (close_ : bool) : M unit :=
  self ← ask;
  k ← lift (encode self key);
  h ← on_cache;
  d ← read_disk;
  if negb (FanoutCache.contains E now d h k) then raise (KeyError k)
  else
    d' ← lift (FanoutCache.delitem E now d h k);
    write_disk d';;
    when close_ close.

Definition clear (close_ : bool) : M unit :=
  h ← on_cache;
  d ← read_disk;
  write_disk (FanoutCache.clear d h).2;;
  when close_ close.

(** [clear_all]: the legacy name, [self.clear()]. *)
Definition clear_all : M unit := clear true.

(** The loop of [clear_keys]: [del self.cache[key]] for every key. *)
Fixpoint del_loop (now : Z) (keys : list elt) : M unit :=
  match keys with
  | [] => mret tt
  | key :: rest =>
      h ← on_cache;
      d ← read_disk;
      d' ← lift (FanoutCache.delitem E now d h key);
      write_disk d';;
      del_loop now rest
  end.

(** Iterating over what [get_startswith] returned with [keys_only]. *)
Definition iter_matches (m : matches) : list elt :=
  match m with
  | Matches l => EStr <$> keys_of l
  | MatchDict d => d.*1
  end.

Definition clear_keys (now : Z) (startswith_ : match_arg) (close_ : bool)
    : M unit :=
  m ← get_startswith now startswith_ false false true false;
  del_loop now (iter_matches m);;
  when close_ close.

(** The loop of [copy_cache]: the triple read from the source is written
    to the destination, the expiration time read going in as [expire]. *)
Fixpoint copy_loop (now : Z) (src_cache dst_cache : handle)
    (keys : list elt) (d : disk) : outcome disk :=
  match keys with
  | [] => Ret d
  | key :: rest =>
      match FanoutCache.get E now d src_cache key PNone true true with
      | Triple value expire_time tag =>
          copy_loop now src_cache dst_cache rest
            (FanoutCache.set E now d dst_cache key value expire_time tag)
      | _ => Exc TypeError
      end
  end.

(** The destination is cleared first; the key list of the source is taken
    after that, on the disk as the clearing left it. *)
Definition copy_cache (now : Z) (src_cache dst_cache : handle) (d : disk)
    : outcome disk :=
  let d1 := (FanoutCache.clear d dst_cache).2 in
  copy_loop now src_cache dst_cache (FanoutCache.iter d1 src_cache) d1.

(** Truthiness of a cache object: it has [__len__], so an empty cache is
    falsy, like [None]. *)
Definition truthy_cache (d : disk) (c : option handle) : bool :=
  match c with
  | None => false
  | Some h => (0 <? FanoutCache.len d h)%nat
  end.

Definition init_cache (now : Z) (shards : nat) (timeout : Q)
    (cache : option handle) : M unit :=
  self ← ask;
  d ← read_disk;
  let shards := if (shards =? 0)%nat then Attr.shards self else shards in
  let timeout := if Qeq_bool timeout 0 then Attr.timeout self else timeout in
  let given := if truthy_cache d cache then cache else None in
  new ← match given with
         | Some c =>
             if negb (String.eqb (directory c) (Attr.cache_path self))
             then raise (Exception
                           "Given DiskCache and DataStore paths do not match!")
             else mret (with_open true c)
         | None =>
             lift (FanoutCache.create (Attr.cache_path self) shards timeout
                     (Attr.tag_index self))
         end;
  match Attr.cache self with
  | Some old =>
      if truthy_cache d (Some old) && negb (shards =? Attr.shards self)%nat
      then d' ← lift (copy_cache now old new d); write_disk d'
      else mret tt
  | None => mret tt
  end;;
  set_cache (Some new);;
  close.

(** [__init__]: the attributes are stored and [init_cache()] is run. *)
Definition init (now : Z) (name delim cache_path : string) (shards : nat)
    (timeout : Q) (expire : option Z) (tag_index : bool) (d : disk)
    : outcome unit * world :=
  init_cache now 0%nat 0%Q None
    {| disk_of := d;
       self_of := {| Attr.name := name; Attr.delim := delim;
                     Attr.cache_path := cache_path; Attr.shards := shards;
                     Attr.timeout := timeout; Attr.expire := expire;
                     Attr.tag_index := tag_index; Attr.cache := None |} |}.
End Methods.
End DataStore.

(** ** Observations on a world *)

(** The world after a method has used the handle [h] of [w]: the disk is
    [d], the handle is open or closed as [b] says, the attributes are
    those of [w]. *)
Definition settle (b : bool) (d : disk) (w : world) (h : handle) : world :=
  {| disk_of := d;
     self_of := Attr.with_cache (Some (with_open b h)) (self_of w) |}.

(** The live handle of the world is closed. *)
Definition closed (w : world) : Prop :=
  is_open <$> Attr.cache (self_of w) = Some false.

(** The live handle of the world is open. *)
Definition left_open (w : world) : Prop :=
  is_open <$> Attr.cache (self_of w) = Some true.

(** The attributes of the object other than its live cache reference. *)
Definition frame (self : Attr.t) : Attr.t := Attr.with_cache None self.

(** A method body that leaves those attributes alone, however it ends. *)
Definition keeps_frame {A} (m : M A) : Prop :=
  forall w, frame (self_of (m w).2) = frame (self_of w).

(** The handle [init_cache] builds when none is supplied. *)
Definition built (self : Attr.t) (shards : nat) (timeout : Q) : handle :=
  {| directory := Attr.cache_path self;
     count := if (shards =? 0)%nat then Attr.shards self else shards;
     h_timeout := if Qeq_bool timeout 0 then Attr.timeout self else timeout;
     h_tag_index := Attr.tag_index self;
     is_open := false |}.

(** The key a match of [get_startswith] is reported under: the key itself,
    or under [suffix_keys] what follows the match key in it. *)
Definition reported (match_key : string) (suffix_keys : bool) (s : string)
    : string :=
  if suffix_keys then slice_from (String.length match_key) s else s.

(** The match key of [get_startswith]: the joined key, with the delimiter
    appended unless [match_part] is set. *)
Definition match_key_of (self : Attr.t) (joined : string) (match_part : bool)
    : string :=
  if match_part then joined else joined +:+ Attr.delim self.

(** The value stored under a key, as [self.cache[key]] returns it when the
    row is live. *)
Definition value_at (E : engine) (now : Z) (d : disk) (h : handle)
    (s : string) : pyval :=
  default PNone (r_value <$> FanoutCache.find E now d h (EStr s)).

(** The pairs [items] collects: every key the handle lists, with what
    [get] returns for it. *)
Definition item_pairs (E : engine) (now : Z) (d : disk) (h : handle)
    : list (elt * got) :=
  (fun k => (k, FanoutCache.get E now d h k PNone false false))
    <$> FanoutCache.iter d h.



(** The row [copy_cache] writes for a key the source lists: value and tag
    as read, the expiration time read going in as seconds to live; for a key
    that has no live row the defaults [get] returns, [None] throughout. *)
Definition copied_row (E : engine) (now : Z) (d : disk) (src : handle)
    (k : elt) : row :=
  match FanoutCache.find E now d src k with
  | Some r => {| r_value := r_value r;
                 r_expire_time := Z.add now <$> r_expire_time r;
                 r_tag := r_tag r |}
  | None => {| r_value := PNone; r_expire_time := None; r_tag := None |}
  end.

(** A ttl is [None] or not negative.  The engine ends each write with a
    cull that purges, from the shard written, rows whose expiration time is
    before the time of the write; a row written under such a ttl is not
    among them.  What is proved below about the row a write leaves is
    stated for such ttls, and what is proved about the other keys is stated
    for their live rows, which no cull touches. *)
Definition not_negative (e : option Z) : Prop :=
  forall d, e = Some d -> 0 <= d.

(** ** Concrete stores for the examples *)

(** An engine instance: keys hashed by length (strings) or magnitude
    (numbers), no warnings, a volume of one unit per row. *)
Definition E0 : engine :=
  {| hash := fun k => match k with
                      | EStr s => String.length s
                      | ENum z => Z.to_nat z
                      end;
     volume_of := fun ss => Z.of_nat (list_sum (map (@length _) ss));
     check_of := fun _ _ => [] |}.

(** The base class: no name, [":"] as delimiter, constructor defaults. *)
Definition base_store : Attr.t :=
  {| Attr.name := ""; Attr.delim := ":"; Attr.cache_path := "cache/data";
     Attr.shards := 8; Attr.timeout := 1 # 100; Attr.expire := None;
     Attr.tag_index := false; Attr.cache := None |}.

(** A sub-class named ["cfg"]. *)
Definition cfg_store : Attr.t :=
  {| Attr.name := "cfg"; Attr.delim := ":"; Attr.cache_path := "cache/data";
     Attr.shards := 8; Attr.timeout := 1 # 100; Attr.expire := None;
     Attr.tag_index := false; Attr.cache := None |}.

(** A freshly constructed base-class store over an empty disk. *)
Definition fresh_world : world :=
  (DataStore.init E0 0 "" ":" "cache/data" 8 (1 # 100) None false ∅).2.

(** The handle such a store holds. *)
Definition handle8 : handle :=
  {| directory := "cache/data"; count := 8; h_timeout := 1 # 100;
     h_tag_index := false; is_open := false |}.

(** A store named ["cfg"] holding the keys ["cfg:Job.Foo:a"] and
    ["cfg:Job.FooBar:b"]. *)
Definition cfg_world : world :=
  let w0 := (DataStore.init E0 0 "cfg" ":" "cache/data" 8 (1 # 100) None
               false ∅).2 in
  let w1 := (DataStore.set E0 0 (KSeq [EStr "Job.Foo"; EStr "a"]) (PInt 1)
               None None true w0).2 in
  (DataStore.set E0 0 (KSeq [EStr "Job.FooBar"; EStr "b"]) (PInt 2)
     None None true w1).2.

(** A base-class store whose default expiration is 60 seconds. *)
Definition timed_world : world :=
  (DataStore.init E0 0 "" ":" "cache/data" 8 (1 # 100) (Some 60) false ∅).2.

(** A two-shard store holding two entries with distinct expiration times
    and tags. *)
Definition tagged_world : world :=
  let w0 := (DataStore.init E0 0 "" ":" "cache/data" 2 (1 # 100) None false
               ∅).2 in
  let w1 := (DataStore.set E0 0 (KOne (EStr "a")) (PInt 1) (Some 60)
               (Some "t1") true w0).2 in
  (DataStore.set E0 0 (KOne (EStr "bb")) (PInt 2) (Some 120) (Some "t2")
     true w1).2.

Definition handle2 : handle :=
  {| directory := "cache/data"; count := 2; h_timeout := 1 # 100;
     h_tag_index := false; is_open := false |}.

(** The rows [cfg_world] holds. *)
Definition row_a : row :=
  {| r_value := PInt 1; r_expire_time := None; r_tag := None |}.

Definition row_b : row :=
  {| r_value := PInt 2; r_expire_time := None; r_tag := None |}.



(** A cache on another directory, to copy into. *)
Definition other_handle : handle :=
  {| directory := "cache/copy"; count := 4; h_timeout := 1 # 100;
     h_tag_index := false; is_open := false |}.

(** * Properties *)

(** ** String facts used by the key encoder *)

Lemma append_cons (x : ascii) (a b : string) :
  String x a +:+ b = String x (a +:+ b).
Proof. reflexivity. Qed.

Lemma append_nil (b : string) : "" +:+ b = b.
Proof. reflexivity. Qed.

Lemma prefix_app (p t : string) : String.prefix p (p +:+ t) = true.
Proof.
  induction p as [|a p IH].
  - rewrite append_nil. by destruct t.
  - rewrite append_cons. simpl.
    destruct (ascii_dec a a) as [_|Hne]; [exact IH | by destruct Hne].
Qed.

Lemma prefix_app_r (p s t : string) :
  String.prefix p s = true -> String.prefix p (s +:+ t) = true.
Proof.
  revert s; induction p as [|a p IH]; intros s Hp.
  - by destruct (s +:+ t).
  - destruct s as [|b s]; simpl in Hp; [done|].
    rewrite append_cons. simpl.
    destruct (ascii_dec a b); [by apply IH | done].
Qed.

Lemma append_assoc (a b c : string) : (a +:+ b) +:+ c = a +:+ (b +:+ c).
Proof.
  induction a as [|x a IH]; [done|]. rewrite !append_cons. by f_equal.
Qed.

Lemma all_str_EStr (ss : list string) : all_str (EStr <$> ss) = Some ss.
Proof.
  induction ss as [|s ss IH]; [done|]. rewrite fmap_cons. simpl. by rewrite IH.
Qed.

Lemma str_join_EStr (delim : string) (ss : list string) :
  str_join delim (EStr <$> ss) = Ret (String.concat delim ss).
Proof. unfold str_join. by rewrite all_str_EStr. Qed.

Lemma all_str_Some (l : list elt) (ss : list string) :
  all_str l = Some ss -> l = EStr <$> ss.
Proof.
  revert ss; induction l as [|[s|z] l IH]; intros ss H; simpl in *.
  - by inversion H.
  - destruct (all_str l) as [ss'|]; [|done]. inversion H; subst.
    rewrite fmap_cons. by rewrite (IH ss').
  - done.
Qed.

(** A joined key starts with whatever its first element starts with. *)
Lemma concat_prefix (p delim s : string) (ss : list string) :
  String.prefix p s = true ->
  String.prefix p (String.concat delim (s :: ss)) = true.
Proof.
  intros Hp. destruct ss as [|s' ss]; simpl; [done|]. by apply prefix_app_r.
Qed.

Lemma name_eqb_false (n : string) : n <> "" -> String.eqb n "" = false.
Proof. intros Hn. by apply String.eqb_neq. Qed.

(** ** The key encoder *)

Section Makey.
Variable self : Attr.t.

Let name := Attr.name self.
Let delim := Attr.delim self.

Lemma elts_of_unnamed (args : list elt) :
  name = "" -> DataStore.elts_of self args = Ret args.
Proof. unfold DataStore.elts_of, name. by intros ->. Qed.

Lemma elts_of_prefixed (s : string) (rest : list elt) :
  startswith s (name +:+ delim) = true ->
  DataStore.elts_of self (EStr s :: rest) = Ret (EStr s :: rest).
Proof.
  unfold DataStore.elts_of, name, delim. intros Hs.
  destruct (String.eqb (Attr.name self) ""); [done|]. simpl. by rewrite Hs.
Qed.

Lemma elts_of_plain (s : string) (rest : list elt) :
  name <> "" -> startswith s (name +:+ delim) = false ->
  DataStore.elts_of self (EStr s :: rest) = Ret (EStr name :: EStr s :: rest).
Proof.
  unfold DataStore.elts_of, name, delim. intros Hn Hs.
  rewrite name_eqb_false by done. simpl. by rewrite Hs.
Qed.

(** Whatever [makey] joins, the joined key starts with name and
    delimiter when the name is not empty. *)
Lemma makey_str_prefixed (args : list elt) (k : string) :
  name <> "" -> DataStore.makey_str self args = Ret k ->
  startswith k (name +:+ delim) = true.
Proof.
  intros Hn. unfold DataStore.makey_str.
  destruct args as [|[s|z] rest].
  - unfold DataStore.elts_of. fold name. by rewrite name_eqb_false.
  - destruct (startswith s (name +:+ delim)) eqn:Hs.
    + rewrite elts_of_prefixed by done. simpl. unfold str_join. simpl.
      destruct (all_str rest) as [ss|]; simpl; [|done].
      intros [= <-]. by apply concat_prefix.
    + rewrite elts_of_plain by done. simpl. unfold str_join. simpl.
      destruct (all_str rest) as [ss|]; simpl; [|done].
      intros [= <-]. unfold startswith. fold delim.
      rewrite <- append_assoc. apply prefix_app.
  - unfold DataStore.elts_of. fold name. by rewrite name_eqb_false.
Qed.

Lemma makey_as_str (args : list elt) :
  DataStore.makey self args false = Joined <$> DataStore.makey_str self args.
Proof.
  unfold DataStore.makey, DataStore.makey_str.
  by destruct (DataStore.elts_of self args).
Qed.

Lemma makey_str_single (k : string) :
  name = "" \/ startswith k (name +:+ delim) = true ->
  DataStore.makey_str self [EStr k] = Ret k.
Proof.
  unfold DataStore.makey_str. intros [Hn|Hk].
  - by rewrite elts_of_unnamed.
  - by rewrite elts_of_prefixed.
Qed.
End Makey.

(** C4, counterexample: in the base class, whose name is empty, [makey]
    called with no element raises nothing and returns the empty string. *)
Lemma makey_no_elements_base_returns :
  DataStore.makey base_store [] false = Ret (Joined "") /\
  raises (DataStore.makey base_store [] false) = false.
Proof. split; reflexivity. Qed.

(** C4, amended: with a non-empty name [makey] called with no element
    raises (the [IndexError] of [args[0]]); with an empty name it returns the
    empty key, or the empty list under [as_tuple]. *)
Theorem makey_no_elements (self : Attr.t) (as_tuple : bool) :
  (Attr.name self <> "" ->
   DataStore.makey self [] as_tuple = Exc IndexError) /\
  (Attr.name self = "" ->
   DataStore.makey self [] as_tuple
   = Ret (if as_tuple then Elts [] else Joined "")).
Proof.
  unfold DataStore.makey, DataStore.elts_of. split.
  - intros Hn. by rewrite name_eqb_false.
  - intros ->. by destruct as_tuple.
Qed.

Lemma makey_no_elements_witness :
  DataStore.makey cfg_store [] false = Exc IndexError /\
  DataStore.makey base_store [] false = Ret (Joined "").
Proof.
  split.
  - apply (proj1 (makey_no_elements cfg_store false)). simpl. discriminate.
  - apply (proj2 (makey_no_elements base_store false)). reflexivity.
Defined.

Lemma all_str_number (z : Z) (args : list elt) :
  ENum z ∈ args -> all_str args = None.
Proof.
  induction args as [|[s|z'] args IH]; intros Hin.
  - by apply elem_of_nil in Hin.
  - apply elem_of_cons in Hin as [Hin|Hin]; [done|].
    simpl. by rewrite IH.
  - done.
Qed.

(** C5: a number among the elements makes [makey] raise, wherever it
    stands and whatever the namespace: [str.join] refuses it, and before
    that [startswith] is missing on a number placed first under a non-empty
    name. *)
Theorem makey_number_raises (self : Attr.t) (z : Z) (args : list elt) :
  ENum z ∈ args ->
  raises (DataStore.makey self args false) = true /\
  (forall rest, args = ENum z :: rest ->
     DataStore.makey self args false
     = Exc (if String.eqb (Attr.name self) "" then TypeError
            else AttributeError)).
Proof.
  intros Hin. split.
  - pose proof (all_str_number z args Hin) as Ha.
    assert (Hb : forall n, all_str (EStr n :: args) = None)
      by (intros n; simpl; by rewrite Ha).
    unfold DataStore.makey, DataStore.elts_of.
    destruct (String.eqb (Attr.name self) "").
    + cbn -[all_str]. unfold str_join. by rewrite Ha.
    + destruct args as [|[s|z'] rest]; [done| |done].
      cbn -[all_str]. unfold str_join.
      destruct (startswith s _); [by rewrite Ha | by rewrite Hb].
  - intros rest ->. unfold DataStore.makey, DataStore.elts_of.
    destruct (String.eqb (Attr.name self) ""); [|done].
    simpl. unfold str_join. by simpl.
Qed.

Lemma makey_number_raises_witness :
  raises (DataStore.makey base_store [ENum 5] false) = true /\
  DataStore.makey base_store [ENum 5] false = Exc TypeError /\
  DataStore.makey cfg_store [ENum 5] false = Exc AttributeError.
Proof.
  split; [|split].
  - apply (makey_number_raises base_store 5 [ENum 5]). apply list_elem_of_here.
  - apply (proj2 (makey_number_raises base_store 5 [ENum 5]
                    (list_elem_of_here _ _)) []). reflexivity.
  - apply (proj2 (makey_number_raises cfg_store 5 [ENum 5]
                    (list_elem_of_here _ _)) []). reflexivity.
Defined.

(** C8: under a non-empty name, elements whose first one already starts
    with name and delimiter are joined as they are, with no second copy of
    the name; hence a key that [makey] produced is returned unchanged when it
    is encoded again. *)
Theorem makey_idempotent_prefix (self : Attr.t) (s : string)
    (rest args : list elt) (as_tuple : bool) (k : string) :
  Attr.name self <> "" ->
  (startswith s (Attr.name self +:+ Attr.delim self) = true ->
   DataStore.makey self (EStr s :: rest) as_tuple
   = if as_tuple then Ret (Elts (EStr s :: rest))
     else Joined <$> str_join (Attr.delim self) (EStr s :: rest)) /\
  (DataStore.makey self args false = Ret (Joined k) ->
   DataStore.makey self [EStr k] false = Ret (Joined k)).
Proof.
  intros Hn. split.
  - intros Hs. unfold DataStore.makey. rewrite elts_of_prefixed by done.
    by destruct as_tuple.
  - rewrite !makey_as_str. intros Hk.
    destruct (DataStore.makey_str self args) as [k'|] eqn:Hk'; [|done].
    injection Hk as ->.
    rewrite makey_str_single; [done|]. right.
    by apply (makey_str_prefixed self args).
Qed.

Lemma makey_idempotent_prefix_witness :
  DataStore.makey cfg_store [EStr "cfg:Job.Foo"; EStr "a"] false
  = Ret (Joined "cfg:Job.Foo:a") /\
  DataStore.makey cfg_store [EStr "cfg:Job.Foo:a"] false
  = Ret (Joined "cfg:Job.Foo:a").
Proof.
  assert (Hn : Attr.name cfg_store <> "") by (simpl; discriminate).
  split.
  - apply (proj1 (makey_idempotent_prefix cfg_store "cfg:Job.Foo" [EStr "a"]
                    [] false "" Hn)). reflexivity.
  - apply (proj2 (makey_idempotent_prefix cfg_store "" []
                    [EStr "Job.Foo"; EStr "a"] false "cfg:Job.Foo:a" Hn)).
    reflexivity.
Defined.

(** ** Tactics for method bodies *)

Ltac mstep :=
  unfold mbind, M_bind, mret, M_ret, on_cache, DataStore.close, when, ask,
    read_disk, write_disk, set_cache, lift, raise;
  simpl.

Ltac run := repeat (progress mstep).

Ltac mstep_in H :=
  unfold mbind, M_bind, mret, M_ret, on_cache, DataStore.close, when, ask,
    read_disk, write_disk, set_cache, lift, raise in H;
  simpl in H.

Ltac run_in H := repeat (progress mstep_in H).

(** ** Release of the handle *)

Lemma bind_ret_inv {A B} (m : M A) (f : A -> M B) (w w' : world) (b : B) :
  (m ≫= f) w = (Ret b, w') ->
  exists a w1, m w = (Ret a, w1) /\ f a w1 = (Ret b, w').
Proof.
  unfold mbind, M_bind. destruct (m w) as [[a|e] w1]; [|done].
  intros H. by exists a, w1.
Qed.

Lemma mret_inv {A} (a b : A) (w w' : world) :
  (mret a : M A) w = (Ret b, w') -> a = b /\ w = w'.
Proof. unfold mret, M_ret. by intros [= -> ->]. Qed.

Lemma close_closed (w w' : world) (u : unit) :
  DataStore.close w = (Ret u, w') -> closed w'.
Proof.
  unfold DataStore.close, closed. run.
  destruct (Attr.cache (self_of w)) as [h|]; [|done].
  by intros [= _ <-].
Qed.

Lemma close_then_ret {A} (a b : A) (w w' : world) :
  (DataStore.close;; mret a) w = (Ret b, w') -> closed w'.
Proof.
  intros (u & w1 & Hc & Hr)%bind_ret_inv.
  apply mret_inv in Hr as [_ <-]. by apply close_closed in Hc.
Qed.

(** Peel the binds of a method that returned, down to its last statement. *)
Ltac peel H :=
  repeat (cbv beta in H;
          lazymatch type of H with
          | (mbind _ _) _ = _ =>
              let a := fresh "a" in
              let w1 := fresh "w" in
              let H1 := fresh "H" in
              apply bind_ret_inv in H as (a & w1 & H1 & H)
          end).

(** On an instance, [expire()] raises before it reaches the handle. *)
Lemma call_expire_raises (w : world) :
  DataStore.call_expire w = (Exc TypeError, w).
Proof. reflexivity. Qed.

Ltac closes H :=
  peel H; try (apply mret_inv in H as [_ <-]); unfold when in *;
  simpl in *; eauto using close_closed.

(** C2, counterexample: [delete] of a key that is not in the store, with
    its default [close=True], raises [KeyError] after the membership test
    has opened the handle, and leaves the handle open. *)
Lemma delete_absent_leaves_handle_open :
  closed fresh_world /\
  (DataStore.delete E0 0 (KOne (EStr "k")) true fresh_world).1
  = Exc (KeyError (EStr "k")) /\
  left_open (DataStore.delete E0 0 (KOne (EStr "k")) true fresh_world).2.
Proof. by vm_compute. Qed.

(** C2, amended: each of these operations, called with its default
    [close=True], has closed the storage handle when it returns normally;
    [get_startswith] on an argument that is neither a sequence, a string nor
    a number returns the empty list without touching the handle.  Nothing
    closes the handle on a path that raises. *)
Theorem handle_closed_on_return (E : engine) (now : Z) (w w' : world) :
  (forall key default et tg v,
     DataStore.get E now key default et tg true w = (Ret v, w') -> closed w') /\
  (forall key v e tg u,
     DataStore.set E now key v e tg true w = (Ret u, w') -> closed w') /\
  (forall key v e tg u,
     DataStore.add E now key v e tg true w = (Ret u, w') -> closed w') /\
  (forall key u,
     DataStore.delete E now key true w = (Ret u, w') -> closed w') /\
  (forall as_dict r,
     DataStore.items E now as_dict w = (Ret r, w') -> closed w') /\
  (forall k part as_dict keys_only suffix r,
     DataStore.get_startswith E now (MKey k) part as_dict keys_only suffix w
     = (Ret r, w') -> closed w') /\
  (forall part as_dict keys_only suffix,
     DataStore.get_startswith E now MOther part as_dict keys_only suffix w
     = (Ret (Matches []), w)) /\
  (forall u, DataStore.clear true w = (Ret u, w') -> closed w') /\
  (forall m u,
     DataStore.clear_keys E now m true w = (Ret u, w') -> closed w') /\
  (forall tag n, DataStore.evict tag w = (Ret n, w') -> closed w') /\
  (forall n, DataStore.expire now w = (Ret n, w') -> closed w') /\
  (forall fix_ l, DataStore.check E fix_ w = (Ret l, w') -> closed w') /\
  (forall v, DataStore.volume E w = (Ret v, w') -> closed w').
Proof.
  repeat split.
  - intros key default et tg v H. unfold DataStore.get in H. closes H.
  - intros key v e tg u H. unfold DataStore.set in H. closes H.
  - intros key v e tg u H. unfold DataStore.add in H. closes H.
  - intros key u H. unfold DataStore.delete in H. peel H.
    destruct (negb _); [done|]. closes H.
  - intros as_dict r H. unfold DataStore.items in H. closes H.
  - intros k part as_dict keys_only suffix r H.
    unfold DataStore.get_startswith in H. closes H.
  - intros u H. unfold DataStore.clear in H. closes H.
  - intros m u H. unfold DataStore.clear_keys in H. closes H.
  - intros tag n H. unfold DataStore.evict in H. closes H.
  - intros n H. unfold DataStore.expire in H. closes H.
  - intros fix_ l H. unfold DataStore.check in H. closes H.
  - intros v H. unfold DataStore.volume in H. closes H.
Qed.

Lemma handle_closed_on_return_witness :
  closed (DataStore.set E0 0 (KOne (EStr "k")) (PInt 1) None None true
            fresh_world).2.
Proof.
  apply (proj1 (proj2 (handle_closed_on_return E0 0 fresh_world _))
           (KOne (EStr "k")) (PInt 1) None None tt).
  by vm_compute.
Defined.

(** ** The engine's rows *)

Section Rows.
Context {V : Type}.
Implicit Types (s : list (elt * V)) (k : elt) (r : V).

Lemma assoc_lookup_store k r s : assoc_lookup k (assoc_store k r s) = Some r.
Proof.
  induction s as [|[k' r'] s IH]; simpl.
  - by rewrite decide_True.
  - destruct (decide (k = k')); simpl.
    + by rewrite decide_True.
    + by rewrite decide_False.
Qed.

Lemma assoc_lookup_store_ne k k' r s :
  k' <> k -> assoc_lookup k' (assoc_store k r s) = assoc_lookup k' s.
Proof.
  intros Hne. induction s as [|[k0 r0] s IH]; simpl.
  - by rewrite decide_False.
  - destruct (decide (k = k0)) as [<-|]; simpl.
    + by rewrite !decide_False.
    + destruct (decide (k' = k0)); [done | exact IH].
Qed.

Lemma assoc_lookup_remove k s : assoc_lookup k (assoc_remove k s) = None.
Proof.
  induction s as [|[k' r'] s IH]; simpl; [done|].
  destruct (decide (k = k')); simpl; [done|]. by rewrite decide_False.
Qed.

Lemma assoc_lookup_remove_ne k k' s :
  k' <> k -> assoc_lookup k' (assoc_remove k s) = assoc_lookup k' s.
Proof.
  intros Hne. induction s as [|[k0 r0] s IH]; simpl; [done|].
  destruct (decide (k = k0)) as [<-|]; simpl.
  - by rewrite decide_False.
  - destruct (decide (k' = k0)); [done | exact IH].
Qed.
End Rows.

Section Engine.
Variable E : engine.
Implicit Types (d : disk) (h : handle) (k : elt).

Lemma rows_put_rows d h i s :
  FanoutCache.rows (FanoutCache.put_rows d h i s) h i = s.
Proof.
  unfold FanoutCache.rows, FanoutCache.put_rows. by rewrite lookup_insert_eq.
Qed.

Lemma rows_put_rows_ne d h i j s :
  i <> j ->
  FanoutCache.rows (FanoutCache.put_rows d h i s) h j = FanoutCache.rows d h j.
Proof.
  intros Hne. unfold FanoutCache.rows, FanoutCache.put_rows.
  rewrite lookup_insert_ne; [done|]. by intros [= ?].
Qed.

Lemma row_of_set now d h k v e tag :
  FanoutCache.row_of E (FanoutCache.set E now d h k v e tag) h k
  = Some {| r_value := v; r_expire_time := Z.add now <$> e; r_tag := tag |}.
Proof.
  unfold FanoutCache.row_of, FanoutCache.set.
  by rewrite rows_put_rows, assoc_lookup_store.
Qed.

Lemma row_of_set_ne now d h k k' v e tag :
  k' <> k ->
  FanoutCache.row_of E (FanoutCache.set E now d h k v e tag) h k'
  = FanoutCache.row_of E d h k'.
Proof.
  intros Hne. unfold FanoutCache.row_of, FanoutCache.set.
  destruct (decide (FanoutCache.index E h k = FanoutCache.index E h k'))
    as [Hi|Hi].
  - by rewrite <- Hi, rows_put_rows, assoc_lookup_store_ne.
  - by rewrite rows_put_rows_ne.
Qed.

(** The engine looks at the directory and the shard count of a handle,
    not at whether it is open. *)
Lemma contains_with_open b now d h k :
  FanoutCache.contains E now d (with_open b h) k
  = FanoutCache.contains E now d h k.
Proof. reflexivity. Qed.

Lemma delitem_with_open b now d h k :
  FanoutCache.delitem E now d (with_open b h) k
  = FanoutCache.delitem E now d h k.
Proof. reflexivity. Qed.

Lemma contains_find now d h k :
  FanoutCache.contains E now d h k = true
  <-> exists r, FanoutCache.find E now d h k = Some r.
Proof.
  unfold FanoutCache.contains.
  destruct (FanoutCache.find E now d h k) as [r|]; split; try done.
  - by exists r.
  - by intros [r [=]].
Qed.

Lemma get_absent now d h k default :
  FanoutCache.contains E now d h k = false ->
  FanoutCache.get E now d h k default false false = Plain default.
Proof.
  unfold FanoutCache.contains, FanoutCache.get.
  by destruct (FanoutCache.find E now d h k).
Qed.

Lemma delitem_present now d h k :
  FanoutCache.contains E now d h k = true ->
  exists d', FanoutCache.delitem E now d h k = Ret d'
             /\ FanoutCache.row_of E d' h k = None
             /\ forall k', k' <> k ->
                  FanoutCache.row_of E d' h k' = FanoutCache.row_of E d h k'.
Proof.
  intros Hc. unfold FanoutCache.delitem. rewrite Hc.
  eexists; split; [done|]. unfold FanoutCache.row_of. split.
  - by rewrite rows_put_rows, assoc_lookup_remove.
  - intros k' Hne.
    destruct (decide (FanoutCache.index E h k = FanoutCache.index E h k'))
      as [Hi|Hi].
    + by rewrite <- Hi, rows_put_rows, assoc_lookup_remove_ne.
    + by rewrite rows_put_rows_ne.
Qed.
End Engine.

(** ** Running the methods *)

Section Runs.
Variable E : engine.
Variables (w : world) (h : handle).
Hypothesis Hcache : Attr.cache (self_of w) = Some h.

Lemma get_run now key k default expire_time tag close_ :
  DataStore.encode (self_of w) key = Ret k ->
  DataStore.get E now key default expire_time tag close_ w
  = (Ret (FanoutCache.get E now (disk_of w) h k default expire_time tag),
     settle (negb close_) (disk_of w) w h).
Proof.
  intros Hk. unfold DataStore.get, settle. run. rewrite Hk, Hcache. run.
  by destruct close_.
Qed.

Lemma set_run now key k v e tag close_ :
  DataStore.encode (self_of w) key = Ret k ->
  DataStore.set E now key v e tag close_ w
  = (Ret tt,
     settle (negb close_)
       (FanoutCache.set E now (disk_of w) h k v
          (py_or e (Attr.expire (self_of w))) tag) w h).
Proof.
  intros Hk. unfold DataStore.set, settle. run. rewrite Hk, Hcache. run.
  by destruct close_.
Qed.

Lemma add_run now key k v e tag close_ :
  DataStore.encode (self_of w) key = Ret k ->
  DataStore.add E now key v e tag close_ w
  = (Ret tt,
     settle (negb close_)
       (FanoutCache.add E now (disk_of w) h k v
          (py_or e (Attr.expire (self_of w))) tag).2 w h).
Proof.
  intros Hk. unfold DataStore.add, settle. run. rewrite Hk, Hcache. run.
  by destruct close_.
Qed.

Lemma delete_run_absent now key k close_ :
  DataStore.encode (self_of w) key = Ret k ->
  FanoutCache.contains E now (disk_of w) h k = false ->
  DataStore.delete E now key close_ w
  = (Exc (KeyError k), settle true (disk_of w) w h).
Proof.
  intros Hk Hc. unfold DataStore.delete, settle. run.
  rewrite Hk, Hcache. run. by rewrite contains_with_open, Hc.
Qed.

Lemma delete_run_present now key k close_ :
  DataStore.encode (self_of w) key = Ret k ->
  FanoutCache.contains E now (disk_of w) h k = true ->
  exists d', FanoutCache.delitem E now (disk_of w) h k = Ret d' /\
             DataStore.delete E now key close_ w
             = (Ret tt, settle (negb close_) d' w h).
Proof.
  intros Hk Hc. destruct (delitem_present E now _ h k Hc) as (d' & Hd & _).
  exists d'. split; [done|].
  unfold DataStore.delete, settle. run. rewrite Hk, Hcache. run.
  rewrite contains_with_open, Hc. simpl.
  rewrite delitem_with_open, Hd. run. by destruct close_.
Qed.
End Runs.


(** ** Reading, writing and deleting one key *)

Lemma encode_settle (b : bool) (d : disk) (w : world) (h : handle)
    (key : key_arg) :
  DataStore.encode (self_of (settle b d w h)) key
  = DataStore.encode (self_of w) key.
Proof. reflexivity. Qed.

(** C6: [delete] raises [KeyError] exactly when the key is not in the
    store, and then leaves the contents as they were; when the key is there
    it is removed, the other keys staying.  [get] with a default on a key
    that is not there returns the default and does not raise. *)
Theorem delete_absent_raises_get_defaults (E : engine) (now : Z) (w : world)
    (h : handle) (key : key_arg) (k : elt) (close_ : bool) :
  Attr.cache (self_of w) = Some h ->
  DataStore.encode (self_of w) key = Ret k ->
  let present := FanoutCache.contains E now (disk_of w) h k in
  let r := DataStore.delete E now key close_ w in
  (r.1 = Exc (KeyError k) <-> present = false) /\
  (present = false -> disk_of r.2 = disk_of w) /\
  (present = true ->
     r.1 = Ret tt /\
     FanoutCache.row_of E (disk_of r.2) h k = None /\
     FanoutCache.contains E now (disk_of r.2) h k = false /\
     forall k', k' <> k ->
       FanoutCache.row_of E (disk_of r.2) h k'
       = FanoutCache.row_of E (disk_of w) h k') /\
  (present = false ->
     forall X c,
       (DataStore.get E now key X false false c w).1 = Ret (Plain X)).
Proof.
  intros Hcache Hk present r. subst present r.
  destruct (FanoutCache.contains E now (disk_of w) h k) eqn:Hc.
  - destruct (delete_run_present E w h Hcache now key k close_ Hk Hc)
      as (d' & Hd & ->).
    destruct (delitem_present E now _ h k Hc) as (d'' & Hd' & Hnone & Hoth).
    rewrite Hd in Hd'. injection Hd' as <-. simpl.
    repeat split; try done.
    unfold FanoutCache.contains, FanoutCache.find. by rewrite Hnone.
  - rewrite (delete_run_absent E w h Hcache now key k close_ Hk Hc). simpl.
    repeat split; try done.
    intros _ X c. rewrite (get_run E w h Hcache now key k) by done. simpl.
    by rewrite get_absent.
Qed.

Lemma delete_absent_raises_get_defaults_witness :
  (DataStore.delete E0 5 (KSeq [EStr "Job.Foo"; EStr "a"]) true cfg_world).1
  = Ret tt /\
  (DataStore.delete E0 5 (KOne (EStr "missing")) true cfg_world).1
  = Exc (KeyError (EStr "missing")) /\
  (DataStore.get E0 5 (KOne (EStr "missing")) (PStr "X") false false true
     cfg_world).1 = Ret (Plain (PStr "X")).
Proof.
  assert (Hc : Attr.cache (self_of cfg_world) = Some handle8) by reflexivity.
  split; [|split].
  - apply (delete_absent_raises_get_defaults E0 5 cfg_world handle8
             (KSeq [EStr "Job.Foo"; EStr "a"]) (EStr "cfg:Job.Foo:a") true Hc);
      reflexivity.
  - apply (delete_absent_raises_get_defaults E0 5 cfg_world handle8
             (KOne (EStr "missing")) (EStr "missing") true Hc); reflexivity.
  - apply (delete_absent_raises_get_defaults E0 5 cfg_world handle8
             (KOne (EStr "missing")) (EStr "missing") true Hc); reflexivity.
Defined.

(** C9, counterexample: in a store whose default expiration is 60 seconds,
    [set] called at time 100 with an explicit ttl of 0 stores the entry with
    the default (expiring at 160), not with the ttl supplied (expiring at
    100). *)
Lemma set_zero_ttl_takes_default :
  let w' := (DataStore.set E0 100 (KOne (EStr "k")) (PInt 1) (Some 0) None
               true timed_world).2 in
  r_expire_time <$> FanoutCache.row_of E0 (disk_of w') handle8 (EStr "k")
  = Some (Some 160) /\
  r_expire_time <$> FanoutCache.row_of E0 (disk_of w') handle8 (EStr "k")
  <> Some (Some (100 + 0)).
Proof. by vm_compute. Qed.

(** C9, amended: [set] returns normally.  With a ttl of [None] - or of 0,
    which [or] treats alike - the namespace's default expiration is the ttl
    in force, and when that default is [None] or not negative the entry is
    stored with the value and tag given, expiring that many seconds after
    the call.  With a positive ttl the entry is stored expiring exactly
    [ttl] seconds after the call. *)
Theorem set_expiration (E : engine) (now : Z) (w : world) (h : handle)
    (key : key_arg) (k : elt) (v : pyval) (ttl : option Z)
    (tag : option string) (close_ : bool) :
  Attr.cache (self_of w) = Some h ->
  DataStore.encode (self_of w) key = Ret k ->
  let r := DataStore.set E now key v ttl tag close_ w in
  r.1 = Ret tt /\
  (ttl = None \/ ttl = Some 0 ->
   not_negative (Attr.expire (self_of w)) ->
   FanoutCache.row_of E (disk_of r.2) h k
   = Some {| r_value := v;
             r_expire_time := Z.add now <$> Attr.expire (self_of w);
             r_tag := tag |}) /\
  (forall z, ttl = Some z -> 0 < z ->
   FanoutCache.row_of E (disk_of r.2) h k
   = Some {| r_value := v; r_expire_time := Some (now + z); r_tag := tag |}).
Proof.
  intros Hcache Hk r. subst r.
  rewrite (set_run E w h Hcache now key k) by done. simpl.
  split; [done|]. split.
  - intros [-> | ->] _; apply row_of_set.
  - intros z -> Hz. rewrite row_of_set. unfold py_or, truthyZ.
    destruct (Z.eqb_spec z 0); [lia|]. reflexivity.
Qed.

Lemma set_expiration_witness :
  FanoutCache.row_of E0
    (disk_of (DataStore.set E0 100 (KOne (EStr "k")) (PInt 1) (Some 30) None
                true timed_world).2) handle8 (EStr "k")
  = Some {| r_value := PInt 1; r_expire_time := Some 130; r_tag := None |}
  /\
  FanoutCache.row_of E0
    (disk_of (DataStore.set E0 100 (KOne (EStr "k")) (PInt 1) None None
                true timed_world).2) handle8 (EStr "k")
  = Some {| r_value := PInt 1; r_expire_time := Some 160; r_tag := None |}.
Proof.
  split.
  - apply (proj2 (proj2 (set_expiration E0 100 timed_world handle8
                           (KOne (EStr "k")) (EStr "k") (PInt 1) (Some 30)
                           None true eq_refl eq_refl)) 30 eq_refl).
    lia.
  - apply (proj1 (proj2 (set_expiration E0 100 timed_world handle8
                           (KOne (EStr "k")) (EStr "k") (PInt 1) None
                           None true eq_refl eq_refl))).
    + by left.
    + intros d [= <-]. lia.
Defined.

(** ** Add against set *)

Lemma live_written (t1 t2 : Z) (v : pyval) (e : option Z) (g : option string) :
  (forall d, e = Some d -> t2 < t1 + d) ->
  FanoutCache.live t2
    {| r_value := v; r_expire_time := Z.add t1 <$> e; r_tag := g |} = true.
Proof.
  intros He. unfold FanoutCache.live. destruct e as [d|]; simpl; [|done].
  apply Z.ltb_lt. by apply He.
Qed.

(** C7: when the key is not in the store before, and what the first [add]
    wrote has not expired when the second one runs, [add(k, v1)] followed by
    [add(k, v2)] leaves [v1] stored: the second call returns normally and
    changes nothing.  [set(k, v1)] followed by [set(k, v2)] leaves [v2]
    stored, whatever was there, the ttl in force at the second [set] being
    [None] or not negative. *)
Theorem add_keeps_set_overwrites (E : engine) (t1 t2 : Z) (w : world)
    (h : handle) (key : key_arg) (k : elt) (v1 v2 : pyval)
    (e1 e2 : option Z) (g1 g2 : option string) (c1 c2 : bool) :
  Attr.cache (self_of w) = Some h ->
  DataStore.encode (self_of w) key = Ret k ->
  let a1 := DataStore.add E t1 key v1 e1 g1 c1 w in
  let a2 := DataStore.add E t2 key v2 e2 g2 c2 a1.2 in
  let s1 := DataStore.set E t1 key v1 e1 g1 c1 w in
  let s2 := DataStore.set E t2 key v2 e2 g2 c2 s1.2 in
  (FanoutCache.contains E t1 (disk_of w) h k = false ->
   (forall d, py_or e1 (Attr.expire (self_of w)) = Some d -> t2 < t1 + d) ->
   a1.1 = Ret tt /\ a2.1 = Ret tt /\
   disk_of a2.2 = disk_of a1.2 /\
   r_value <$> FanoutCache.row_of E (disk_of a2.2) h k = Some v1 /\
   forall X c,
     (DataStore.get E t2 key X false false c a2.2).1 = Ret (Plain v1)) /\
  (s1.1 = Ret tt /\ s2.1 = Ret tt /\
   (not_negative (py_or e2 (Attr.expire (self_of w))) ->
    r_value <$> FanoutCache.row_of E (disk_of s2.2) h k = Some v2)).
Proof.
  intros Hcache Hk a1 a2 s1 s2. subst a1 a2 s1 s2. split.
  - intros Habs Hlive.
    set (d1 := FanoutCache.set E t1 (disk_of w) h k v1
                 (py_or e1 (Attr.expire (self_of w))) g1).
    assert (Ha1 : DataStore.add E t1 key v1 e1 g1 c1 w
                  = (Ret tt, settle (negb c1) d1 w h)).
    { rewrite (add_run E w h Hcache t1 key k) by done.
      unfold FanoutCache.add. by rewrite Habs. }
    assert (Hrow : FanoutCache.row_of E d1 h k
                   = Some {| r_value := v1;
                             r_expire_time :=
                               Z.add t1 <$> py_or e1 (Attr.expire (self_of w));
                             r_tag := g1 |}) by apply row_of_set.
    assert (Hfind : FanoutCache.find E t2 d1 h k
                    = Some {| r_value := v1;
                              r_expire_time :=
                                Z.add t1 <$> py_or e1 (Attr.expire (self_of w));
                              r_tag := g1 |}).
    { unfold FanoutCache.find. rewrite Hrow. by rewrite live_written. }
    assert (Hc : FanoutCache.contains E t2 d1 h k = true)
      by (unfold FanoutCache.contains; by rewrite Hfind).
    assert (Ha2 : DataStore.add E t2 key v2 e2 g2 c2 (settle (negb c1) d1 w h)
                  = (Ret tt, settle (negb c2) d1 w h)).
    { rewrite (add_run E (settle (negb c1) d1 w h) (with_open (negb c1) h)
                 eq_refl t2 key k) by done.
      simpl. unfold FanoutCache.add. by rewrite contains_with_open, Hc. }
    rewrite Ha1. simpl. rewrite Ha2. simpl.
    repeat split; try done.
    + by rewrite Hrow.
    + intros X c.
      rewrite (get_run E (settle (negb c2) d1 w h) (with_open (negb c2) h)
                 eq_refl t2 key k) by done.
      simpl. unfold FanoutCache.get.
      change (FanoutCache.find E t2 d1 (with_open (negb c2) h) k)
        with (FanoutCache.find E t2 d1 h k).
      by rewrite Hfind.
  - set (d1 := FanoutCache.set E t1 (disk_of w) h k v1
                 (py_or e1 (Attr.expire (self_of w))) g1).
    assert (Hs1 : DataStore.set E t1 key v1 e1 g1 c1 w
                  = (Ret tt, settle (negb c1) d1 w h))
      by (by rewrite (set_run E w h Hcache t1 key k)).
    assert (Hs2 : DataStore.set E t2 key v2 e2 g2 c2 (settle (negb c1) d1 w h)
                  = (Ret tt,
                     settle (negb c2)
                       (FanoutCache.set E t2 d1 h k v2
                          (py_or e2 (Attr.expire (self_of w))) g2) w h)).
    { by rewrite (set_run E (settle (negb c1) d1 w h) (with_open (negb c1) h)
                    eq_refl t2 key k). }
    rewrite Hs1. simpl. rewrite Hs2. simpl.
    repeat split; try done. intros _. by rewrite row_of_set.
Qed.

Lemma add_keeps_set_overwrites_witness :
  r_value <$> FanoutCache.row_of E0
                (disk_of (DataStore.add E0 2 (KOne (EStr "k")) (PInt 2) None
                            None true
                            (DataStore.add E0 1 (KOne (EStr "k")) (PInt 1)
                               None None true fresh_world).2).2)
                handle8 (EStr "k")
  = Some (PInt 1) /\
  r_value <$> FanoutCache.row_of E0
                (disk_of (DataStore.set E0 2 (KOne (EStr "k")) (PInt 2)
                            (Some 5) None true
                            (DataStore.set E0 1 (KOne (EStr "k")) (PInt 1)
                               None None true fresh_world).2).2)
                handle8 (EStr "k")
  = Some (PInt 2).
Proof.
  split.
  - apply (add_keeps_set_overwrites E0 1 2 fresh_world handle8
             (KOne (EStr "k")) (EStr "k") (PInt 1) (PInt 2) None None None
             None true true eq_refl eq_refl).
    + reflexivity.
    + intros d. simpl. discriminate.
  - apply (add_keeps_set_overwrites E0 1 2 fresh_world handle8
             (KOne (EStr "k")) (EStr "k") (PInt 1) (PInt 2) None (Some 5)
             None None true true eq_refl eq_refl).
    intros d [= <-]. lia.
Defined.

(** ** Resharding *)

Section Reshard.
Variable E : engine.

(** The copy loop always finds a triple to unpack: it cannot raise. *)
Lemma copy_loop_total now src dst keys d :
  exists d', DataStore.copy_loop E now src dst keys d = Ret d'.
Proof.
  revert d. induction keys as [|key keys IH]; intros d; simpl.
  - by exists d.
  - unfold FanoutCache.get.
    destruct (FanoutCache.find E now d src key); simpl; apply IH.
Qed.

Lemma copy_cache_total now src dst d :
  exists d', DataStore.copy_cache E now src dst d = Ret d'.
Proof. unfold DataStore.copy_cache. apply copy_loop_total. Qed.

Lemma kf_ret {A} (a : A) : keeps_frame (mret a : M A).
Proof. by intros w. Qed.

Lemma kf_raise {A} (e : exn) : keeps_frame (raise e : M A).
Proof. by intros w. Qed.

Lemma kf_lift {A} (o : outcome A) : keeps_frame (lift o).
Proof. by intros w. Qed.

Lemma kf_ask : keeps_frame ask.
Proof. by intros w. Qed.

Lemma kf_read_disk : keeps_frame read_disk.
Proof. by intros w. Qed.

Lemma kf_write_disk d : keeps_frame (write_disk d).
Proof. by intros w. Qed.

Lemma kf_set_cache c : keeps_frame (set_cache c).
Proof. by intros w. Qed.

Lemma kf_bind {A B} (m : M A) (f : A -> M B) :
  keeps_frame m -> (forall a, keeps_frame (f a)) -> keeps_frame (m ≫= f).
Proof.
  intros Hm Hf w. unfold mbind, M_bind. specialize (Hm w).
  destruct (m w) as [[a|e] w1]; simpl in *; [|done].
  by rewrite Hf.
Qed.

Lemma kf_close : keeps_frame DataStore.close.
Proof.
  unfold DataStore.close. apply kf_bind; [apply kf_ask|]. intros self.
  destruct (Attr.cache self); [apply kf_set_cache | apply kf_raise].
Qed.

Lemma init_cache_keeps_frame now shards timeout cache :
  keeps_frame (DataStore.init_cache E now shards timeout cache).
Proof.
  unfold DataStore.init_cache.
  apply kf_bind; [apply kf_ask|]. intros self.
  apply kf_bind; [apply kf_read_disk|]. intros d.
  apply kf_bind.
  { destruct (if DataStore.truthy_cache d cache then cache else None).
    - destruct (negb _); [apply kf_raise | apply kf_ret].
    - apply kf_lift. }
  intros new. apply kf_bind.
  { destruct (Attr.cache self); [|apply kf_ret].
    destruct (_ && _); [|apply kf_ret].
    apply kf_bind; [apply kf_lift|]. intros d'. apply kf_write_disk. }
  intros _. apply kf_bind; [apply kf_set_cache|]. intros _. apply kf_close.
Qed.

(** What [init_cache] does when no cache object is supplied and the
    shard count in force is not zero. *)
Lemma init_cache_run now shards timeout w :
  count (built (self_of w) shards timeout) <> 0%nat ->
  exists d',
    DataStore.init_cache E now shards timeout None w
    = (Ret tt,
       {| disk_of := d';
          self_of := Attr.with_cache
                       (Some (built (self_of w) shards timeout))
                       (self_of w) |}) /\
    match Attr.cache (self_of w) with
    | Some old =>
        if DataStore.truthy_cache (disk_of w) (Some old)
           && negb (count (built (self_of w) shards timeout)
                    =? Attr.shards (self_of w))%nat
        then DataStore.copy_cache E now old
               (with_open true (built (self_of w) shards timeout))
               (disk_of w) = Ret d'
        else d' = disk_of w
    | None => d' = disk_of w
    end.
Proof.
  intros Hn. unfold DataStore.init_cache, FanoutCache.create. run.
  unfold built in *. simpl in Hn.
  destruct (Nat.eqb_spec
              (if (shards =? 0)%nat then Attr.shards (self_of w) else shards)
              0) as [|_]; [done|].
  run. destruct (Attr.cache (self_of w)) as [old|]; run.
  - destruct (_ && _) eqn:Hcopy; run.
    + destruct (copy_cache_total now old
                  (with_open true (built (self_of w) shards timeout))
                  (disk_of w)) as (d' & Hd').
      unfold built, with_open in *. simpl in *. rewrite Hd'.
      exists d'. split; reflexivity.
    + exists (disk_of w). split; reflexivity.
  - exists (disk_of w). split; reflexivity.
Qed.

(** *** What clearing does to the shards on disk *)

Lemma rows_fold_put (f : shard -> shard) (d0 d : disk) (h h' : handle)
    (l : list nat) (i : nat) :
  directory h' = directory h ->
  FanoutCache.rows
    (fold_right (fun j d' => FanoutCache.put_rows d' h j
                               (f (FanoutCache.rows d0 h j))) d l) h' i
  = if decide (i ∈ l) then f (FanoutCache.rows d0 h i)
    else FanoutCache.rows d h' i.
Proof.
  intros Hdir. induction l as [|j l IH]; cbn [fold_right].
  - destruct (decide (i ∈ [])) as [Hin|_]; [|done].
    by apply elem_of_nil in Hin.
  - unfold FanoutCache.rows, FanoutCache.put_rows in *. rewrite Hdir in *.
    destruct (decide (i = j)) as [->|Hij].
    + rewrite lookup_insert_eq.
      destruct (decide (j ∈ j :: l)) as [_|Hn]; [done|].
      destruct Hn. by left.
    + rewrite lookup_insert_ne by (by intros [= ?]).
      rewrite IH. destruct (decide (i ∈ l)) as [Hin|Hin].
      * destruct (decide (i ∈ j :: l)) as [_|Hn]; [done|].
        destruct Hn. by right.
      * destruct (decide (i ∈ j :: l)) as [Hn|_]; [|done].
        by apply elem_of_cons in Hn as [?|?].
Qed.

Lemma rows_clear (d : disk) (h h' : handle) (i : nat) :
  directory h' = directory h -> (i < count h)%nat ->
  FanoutCache.rows (FanoutCache.clear d h).2 h' i = [].
Proof.
  intros Hdir Hi. unfold FanoutCache.clear, FanoutCache.map_shards. simpl.
  rewrite (rows_fold_put (fun _ => [])) by done.
  destruct (decide (i ∈ seq 0 (count h))) as [_|Hn]; [done|].
  destruct Hn. apply elem_of_seq. lia.
Qed.

Lemma shards_empty (d : disk) (h : handle) (l : list nat) :
  (forall i, i ∈ l -> FanoutCache.rows d h i = []) ->
  flat_map (map fst) (map (FanoutCache.rows d h) l) = [] /\
  list_sum (map (@length _) (map (FanoutCache.rows d h) l)) = 0%nat.
Proof.
  induction l as [|i l IH]; intros Hall; [done|]. simpl.
  rewrite (Hall i) by (by left). simpl. apply IH.
  intros j Hj. apply Hall. by right.
Qed.

Lemma iter_empty (d : disk) (h : handle) :
  (forall i, (i < count h)%nat -> FanoutCache.rows d h i = []) ->
  FanoutCache.iter d h = [] /\ FanoutCache.len d h = 0%nat.
Proof.
  intros Hall. unfold FanoutCache.iter, FanoutCache.len, FanoutCache.shards.
  apply shards_empty. intros i Hi%elem_of_seq. apply Hall. lia.
Qed.

(** Copying into a handle on the same directory with at least as many
    shards copies nothing: clearing the destination has emptied every
    shard of the source. *)
Lemma copy_cache_same_directory now src dst d :
  directory src = directory dst -> (count src <= count dst)%nat ->
  DataStore.copy_cache E now src dst d = Ret (FanoutCache.clear d dst).2 /\
  FanoutCache.iter (FanoutCache.clear d dst).2 dst = [] /\
  FanoutCache.len (FanoutCache.clear d dst).2 dst = 0%nat /\
  forall i, (i < count dst)%nat ->
    FanoutCache.rows (FanoutCache.clear d dst).2 dst i = [].
Proof.
  intros Hdir Hle.
  assert (Hdst : forall i, (i < count dst)%nat ->
            FanoutCache.rows (FanoutCache.clear d dst).2 dst i = [])
    by (intros i Hi; by apply rows_clear).
  assert (Hsrc : forall i, (i < count src)%nat ->
            FanoutCache.rows (FanoutCache.clear d dst).2 src i = [])
    by (intros i Hi; apply rows_clear; [done | lia]).
  unfold DataStore.copy_cache.
  destruct (iter_empty _ _ Hsrc) as [-> _].
  destruct (iter_empty _ _ Hdst) as [-> ->].
  by repeat split.
Qed.
End Reshard.

(** C1: resharding a store that holds entries to a larger shard count
    returns normally and leaves the live handle empty: no value, expiration
    time or tag survives, and the entry count drops to zero.  The new cache is
    built on the directory of the old one, so clearing it before the copy
    empties the shards the old cache reads from. *)
Theorem reshard_to_more_shards_loses_entries (E : engine) (now : Z)
    (w : world) (old : handle) (shards : nat) :
  Attr.cache (self_of w) = Some old ->
  directory old = Attr.cache_path (self_of w) ->
  (0 < FanoutCache.len (disk_of w) old)%nat ->
  shards <> 0%nat ->
  shards <> Attr.shards (self_of w) ->
  (count old <= shards)%nat ->
  let r := DataStore.init_cache E now shards 0 None w in
  r.1 = Ret tt /\
  exists new,
    Attr.cache (self_of r.2) = Some new /\
    count new = shards /\
    FanoutCache.len (disk_of r.2) new = 0%nat /\
    FanoutCache.iter (disk_of r.2) new = [] /\
    forall t k X,
      FanoutCache.get E t (disk_of r.2) new k X false false = Plain X.
Proof.
  intros Hcache Hdir Hlen Hn Hne Hle r. subst r.
  assert (Hcount : count (built (self_of w) shards 0) = shards).
  { unfold built. simpl. by destruct (Nat.eqb_spec shards 0). }
  destruct (init_cache_run E now shards 0 w) as (d' & -> & Hd').
  { by rewrite Hcount. }
  rewrite Hcache, Hcount in Hd'. simpl in Hd'.
  apply Nat.ltb_lt in Hlen. rewrite Hlen in Hd'.
  destruct (Nat.eqb_spec shards (Attr.shards (self_of w))); [done|].
  simpl in Hd'.
  set (new := built (self_of w) shards 0) in *.
  destruct (copy_cache_same_directory E now old (with_open true new)
              (disk_of w))
    as (Hcopy & Hiter & Hlen' & Hrows);
    [done | change (count old <= count new)%nat; lia |].
  rewrite Hcopy in Hd'. injection Hd' as <-.
  simpl. split; [done|]. exists new. repeat split; try done.
  intros t k X.
  assert (Hi : (FanoutCache.index E new k < count (with_open true new))%nat).
  { unfold FanoutCache.index. apply Nat.mod_upper_bound.
    change (count new <> 0%nat). by rewrite Hcount. }
  pose proof (Hrows _ Hi) as Hr.
  unfold FanoutCache.get, FanoutCache.find, FanoutCache.row_of.
  unfold FanoutCache.rows in *. simpl in *. by rewrite Hr.
Qed.

Lemma reshard_to_more_shards_loses_entries_witness :
  FanoutCache.len (disk_of tagged_world) handle2 = 2%nat /\
  (DataStore.init_cache E0 1 4 0 None tagged_world).1 = Ret tt /\
  exists new,
    Attr.cache (self_of (DataStore.init_cache E0 1 4 0 None tagged_world).2)
    = Some new /\
    FanoutCache.len
      (disk_of (DataStore.init_cache E0 1 4 0 None tagged_world).2) new
    = 0%nat.
Proof.
  split; [reflexivity|].
  destruct (reshard_to_more_shards_loses_entries E0 1 tagged_world handle2 4)
    as (Hret & new & Hnew & _ & Hlen & _).
  - reflexivity.
  - reflexivity.
  - apply Nat.ltb_lt. reflexivity.
  - discriminate.
  - simpl. discriminate.
  - simpl. lia.
  - split; [exact Hret|]. exists new. by split.
Defined.

(** A later [init_cache] that asks for the shard count still stored in the
    [shards] attribute copies nothing, whatever the live handle's shard
    count has become: the rows stay where the previous layout put them. *)
Lemma init_cache_stored_shards_no_copy (E : engine) (now : Z) (w : world) :
  Attr.shards (self_of w) <> 0%nat ->
  let r := DataStore.init_cache E now (Attr.shards (self_of w)) 0 None w in
  r.1 = Ret tt /\ disk_of r.2 = disk_of w /\
  count <$> Attr.cache (self_of r.2) = Some (Attr.shards (self_of w)).
Proof.
  intros Hn r. subst r.
  assert (Hcount : count (built (self_of w) (Attr.shards (self_of w)) 0)
                   = Attr.shards (self_of w)).
  { unfold built. simpl.
    by destruct (Nat.eqb_spec (Attr.shards (self_of w)) 0). }
  destruct (init_cache_run E now (Attr.shards (self_of w)) 0 w)
    as (d' & -> & Hd').
  { by rewrite Hcount. }
  rewrite Hcount in Hd'. split; [done|]. split.
  - simpl. destruct (Attr.cache (self_of w)); [|done].
    by rewrite Nat.eqb_refl, andb_false_r in Hd'.
  - change (Some (count (built (self_of w) (Attr.shards (self_of w)) 0))
            = Some (Attr.shards (self_of w))).
    by rewrite Hcount.
Qed.

(** What the copy loop writes for a live row that has an expiration time
    [t]: the time read is passed as the number of seconds to live, so the
    copy expires at [now + t]. *)
Lemma copy_loop_shifts_expiration (E : engine) (now t : Z)
    (src dst : handle) (k : elt) (d : disk) (r : row) :
  FanoutCache.find E now d src k = Some r ->
  r_expire_time r = Some t ->
  exists d',
    DataStore.copy_loop E now src dst [k] d = Ret d' /\
    FanoutCache.row_of E d' dst k
    = Some {| r_value := r_value r; r_expire_time := Some (now + t);
              r_tag := r_tag r |}.
Proof.
  intros Hfind Ht. simpl. unfold FanoutCache.get. rewrite Hfind. simpl.
  eexists. split; [done|]. by rewrite row_of_set, Ht.
Qed.

(** C10: [init_cache] assigns the [cache] attribute and no other: the
    shard count, timeout, path, expiration and tag-index attributes (and
    the name and delimiter) are as before, however the call ends.  After a
    call that asks for a different, non-zero shard count the live handle
    has that count while the [shards] attribute still has the old one. *)
Theorem init_cache_only_swaps_cache (E : engine) (now : Z) (shards : nat)
    (timeout : Q) (cache : option handle) (w : world) :
  let r := DataStore.init_cache E now shards timeout cache w in
  (Attr.shards (self_of r.2) = Attr.shards (self_of w) /\
   Attr.timeout (self_of r.2) = Attr.timeout (self_of w) /\
   Attr.cache_path (self_of r.2) = Attr.cache_path (self_of w) /\
   Attr.expire (self_of r.2) = Attr.expire (self_of w) /\
   Attr.tag_index (self_of r.2) = Attr.tag_index (self_of w) /\
   Attr.name (self_of r.2) = Attr.name (self_of w) /\
   Attr.delim (self_of r.2) = Attr.delim (self_of w)) /\
  (cache = None -> shards <> 0%nat -> shards <> Attr.shards (self_of w) ->
   r.1 = Ret tt /\
   count <$> Attr.cache (self_of r.2) = Some shards /\
   Attr.shards (self_of r.2) <> shards).
Proof.
  intros r. subst r.
  pose proof (init_cache_keeps_frame E now shards timeout cache w) as Hf.
  split.
  - repeat split.
    + change (Attr.shards (frame (self_of
                (DataStore.init_cache E now shards timeout cache w).2))
              = Attr.shards (frame (self_of w))). by rewrite Hf.
    + change (Attr.timeout (frame (self_of
                (DataStore.init_cache E now shards timeout cache w).2))
              = Attr.timeout (frame (self_of w))). by rewrite Hf.
    + change (Attr.cache_path (frame (self_of
                (DataStore.init_cache E now shards timeout cache w).2))
              = Attr.cache_path (frame (self_of w))). by rewrite Hf.
    + change (Attr.expire (frame (self_of
                (DataStore.init_cache E now shards timeout cache w).2))
              = Attr.expire (frame (self_of w))). by rewrite Hf.
    + change (Attr.tag_index (frame (self_of
                (DataStore.init_cache E now shards timeout cache w).2))
              = Attr.tag_index (frame (self_of w))). by rewrite Hf.
    + change (Attr.name (frame (self_of
                (DataStore.init_cache E now shards timeout cache w).2))
              = Attr.name (frame (self_of w))). by rewrite Hf.
    + change (Attr.delim (frame (self_of
                (DataStore.init_cache E now shards timeout cache w).2))
              = Attr.delim (frame (self_of w))). by rewrite Hf.
  - intros -> Hn Hne.
    assert (Hcount : count (built (self_of w) shards timeout) = shards).
    { unfold built. simpl. by destruct (Nat.eqb_spec shards 0). }
    destruct (init_cache_run E now shards timeout w) as (d' & -> & _).
    { by rewrite Hcount. }
    split; [done|]. split; [|done].
    change (Some (count (built (self_of w) shards timeout)) = Some shards).
    by rewrite Hcount.
Qed.

Lemma init_cache_only_swaps_cache_witness :
  (DataStore.init_cache E0 1 4 0 None cfg_world).1 = Ret tt /\
  count <$> Attr.cache
              (self_of (DataStore.init_cache E0 1 4 0 None cfg_world).2)
  = Some 4%nat /\
  Attr.shards (self_of (DataStore.init_cache E0 1 4 0 None cfg_world).2)
  <> 4%nat.
Proof.
  apply (init_cache_only_swaps_cache E0 1 4 0 None cfg_world).
  - reflexivity.
  - discriminate.
  - simpl. discriminate.
Defined.

(** ** Prefix queries *)

Lemma scan_with_open (E : engine) (b : bool) (now : Z) (d : disk)
    (h : handle) (match_key : string) (keys_only suffix_keys : bool)
    (keys : list elt) :
  DataStore.scan E now d (with_open b h) match_key keys_only suffix_keys keys
  = DataStore.scan E now d h match_key keys_only suffix_keys keys.
Proof.
  induction keys as [|[s|z] keys IH]; simpl; [done| |done].
  rewrite IH.
  change (FanoutCache.getitem E now d (with_open b h) (EStr s))
    with (FanoutCache.getitem E now d h (EStr s)).
  done.
Qed.

Lemma get_startswith_run (E : engine) (now : Z) (w : world) (h : handle)
    (k : key_arg) (match_key : string)
    (match_part as_dict keys_only suffix_keys : bool) (l : list match_item) :
  Attr.cache (self_of w) = Some h ->
  DataStore.makey_str (self_of w) match k with KSeq a => a | KOne e => [e] end
  = Ret match_key ->
  DataStore.scan E now (disk_of w) h
    (if match_part then match_key else match_key +:+ Attr.delim (self_of w))
    keys_only suffix_keys (FanoutCache.iter (disk_of w) h) = Ret l ->
  DataStore.get_startswith E now (MKey k) match_part as_dict keys_only
    suffix_keys w
  = (Ret (if as_dict && negb keys_only then MatchDict (dict_of (pairs_of l))
          else Matches l),
     settle false (disk_of w) w h).
Proof.
  intros Hcache Hkey Hscan. unfold DataStore.get_startswith, settle. run.
  rewrite Hkey, Hcache. run.
  rewrite scan_with_open.
  change (FanoutCache.iter (disk_of w) (with_open true h))
    with (FanoutCache.iter (disk_of w) h).
  rewrite Hscan. run. reflexivity.
Qed.

(** C3: in the namespace named ["cfg"] with delimiter [":"], over a store
    holding exactly the keys ["cfg:Job.Foo:a"] and ["cfg:Job.FooBar:b"],
    [get_startswith(["Job.Foo"])] returns the first key alone with
    [match_part=False] and both keys with [match_part=True] (as keys under
    [keys_only], with their values otherwise; in the order of iteration). *)
Theorem exact_boundary_prefix (E : engine) (now : Z) (w : world) (h : handle)
    (r1 r2 : row) (keys_only : bool) :
  Attr.name (self_of w) = "cfg" ->
  Attr.delim (self_of w) = ":" ->
  Attr.cache (self_of w) = Some h ->
  FanoutCache.iter (disk_of w) h
    ≡ₚ [EStr "cfg:Job.Foo:a"; EStr "cfg:Job.FooBar:b"] ->
  FanoutCache.find E now (disk_of w) h (EStr "cfg:Job.Foo:a") = Some r1 ->
  FanoutCache.find E now (disk_of w) h (EStr "cfg:Job.FooBar:b") = Some r2 ->
  let item k r := if keys_only then OnlyKey k else KeyValue k (r_value r) in
  let query part :=
    DataStore.get_startswith E now (MKey (KSeq [EStr "Job.Foo"])) part false
      keys_only false w in
  (query false).1 = Ret (Matches [item "cfg:Job.Foo:a" r1]) /\
  exists l,
    (query true).1 = Ret (Matches l) /\
    l ≡ₚ [item "cfg:Job.Foo:a" r1; item "cfg:Job.FooBar:b" r2].
Proof.
  intros Hname Hdelim Hcache Hperm Hf1 Hf2 item query. subst item query.
  assert (Hkey : DataStore.makey_str (self_of w) [EStr "Job.Foo"]
                 = Ret "cfg:Job.Foo").
  { unfold DataStore.makey_str, DataStore.elts_of.
    by rewrite Hname, Hdelim. }
  assert (Hg1 : FanoutCache.getitem E now (disk_of w) h (EStr "cfg:Job.Foo:a")
                = Ret (r_value r1))
    by (unfold FanoutCache.getitem; by rewrite Hf1).
  assert (Hg2 : FanoutCache.getitem E now (disk_of w) h
                  (EStr "cfg:Job.FooBar:b") = Ret (r_value r2))
    by (unfold FanoutCache.getitem; by rewrite Hf2).
  symmetry in Hperm. apply Permutation_length_2_inv in Hperm.
  split.
  - erewrite get_startswith_run; [reflexivity | done | exact Hkey |].
    rewrite Hdelim.
    destruct Hperm as [-> | ->]; destruct keys_only; simpl;
      rewrite ?Hg1, ?Hg2; reflexivity.
  - destruct Hperm as [Hiter | Hiter].
    + exists [if keys_only then OnlyKey "cfg:Job.Foo:a"
              else KeyValue "cfg:Job.Foo:a" (r_value r1);
              if keys_only then OnlyKey "cfg:Job.FooBar:b"
              else KeyValue "cfg:Job.FooBar:b" (r_value r2)].
      split; [|done].
      erewrite get_startswith_run; [reflexivity | done | exact Hkey |].
      rewrite Hiter. destruct keys_only; simpl; rewrite ?Hg1, ?Hg2; reflexivity.
    + exists [if keys_only then OnlyKey "cfg:Job.FooBar:b"
              else KeyValue "cfg:Job.FooBar:b" (r_value r2);
              if keys_only then OnlyKey "cfg:Job.Foo:a"
              else KeyValue "cfg:Job.Foo:a" (r_value r1)].
      split; [|apply perm_swap].
      erewrite get_startswith_run; [reflexivity | done | exact Hkey |].
      rewrite Hiter. destruct keys_only; simpl; rewrite ?Hg1, ?Hg2; reflexivity.
Qed.

Lemma exact_boundary_prefix_witness :
  (DataStore.get_startswith E0 5 (MKey (KSeq [EStr "Job.Foo"])) false false
     true false cfg_world).1
  = Ret (Matches [OnlyKey "cfg:Job.Foo:a"]) /\
  exists l,
    (DataStore.get_startswith E0 5 (MKey (KSeq [EStr "Job.Foo"])) true false
       true false cfg_world).1 = Ret (Matches l) /\
    l ≡ₚ [OnlyKey "cfg:Job.Foo:a"; OnlyKey "cfg:Job.FooBar:b"].
Proof.
  apply (exact_boundary_prefix E0 5 cfg_world handle8 row_a row_b true).
  - reflexivity.
  - reflexivity.
  - reflexivity.
  - change (FanoutCache.iter (disk_of cfg_world) handle8)
      with [EStr "cfg:Job.FooBar:b"; EStr "cfg:Job.Foo:a"].
    apply perm_swap.
  - reflexivity.
  - reflexivity.
Defined.


(** * Further properties of the code *)

(** ** The key encoder on strings *)

(** X1: on a non-empty sequence of strings [makey] never raises: it returns
    the elements joined by the delimiter, with the name put first exactly
    when the name is not empty and the first element does not already start
    with name and delimiter; under [as_tuple] it returns that element list
    unjoined. *)
Theorem makey_strings (self : Attr.t) (s : string) (ss : list string)
    (as_tuple : bool) :
  let named :=
    negb (String.eqb (Attr.name self) "")
    && negb (startswith s (Attr.name self +:+ Attr.delim self)) in
  let elts := if named then Attr.name self :: s :: ss else s :: ss in
  DataStore.makey self (EStr <$> (s :: ss)) as_tuple
  = Ret (if as_tuple then Elts (EStr <$> elts)
         else Joined (String.concat (Attr.delim self) elts)).
Proof.
  intros named elts. subst named elts.
  unfold DataStore.makey, DataStore.elts_of. rewrite fmap_cons.
  destruct (String.eqb (Attr.name self) "") eqn:Hn; cbn -[String.concat].
  - destruct as_tuple; [done|].
    change (EStr s :: (EStr <$> ss)) with (EStr <$> (s :: ss)).
    by rewrite str_join_EStr.
  - destruct (startswith s _) eqn:Hs; cbn -[String.concat].
    + destruct as_tuple; [done|].
      change (EStr s :: (EStr <$> ss)) with (EStr <$> (s :: ss)).
      by rewrite str_join_EStr.
    + destruct as_tuple; [done|].
      change (EStr (Attr.name self) :: EStr s :: (EStr <$> ss))
        with (EStr <$> (Attr.name self :: s :: ss)).
      by rewrite str_join_EStr.
Qed.

(** X2: under a non-empty name every key [makey] returns starts with the
    name followed by the delimiter, whatever the elements were. *)
Theorem makey_namespaced (self : Attr.t) (args : list elt) (k : string) :
  Attr.name self <> "" ->
  DataStore.makey self args false = Ret (Joined k) ->
  startswith k (Attr.name self +:+ Attr.delim self) = true.
Proof.
  intros Hn. rewrite makey_as_str.
  destruct (DataStore.makey_str self args) as [k'|] eqn:Hk; [|done].
  intros [= <-]. by apply (makey_str_prefixed self args).
Qed.

Lemma makey_namespaced_witness :
  startswith "cfg:Job.Foo:a" "cfg:" = true.
Proof.
  apply (makey_namespaced cfg_store [EStr "Job.Foo"; EStr "a"]).
  - simpl. discriminate.
  - reflexivity.
Defined.

(** ** Keys as sequences and as strings *)

(** X3: a key given as a list or tuple addresses the entry of its joined
    string: when [makey] joins the sequence to [s], [get], [set], [add] and
    [delete] on the sequence do what they do on the string [s] given as
    it is. *)
Theorem sequence_key_is_joined_key (E : engine) (now : Z) (w : world)
    (l : list elt) (s : string) :
  DataStore.makey (self_of w) l false = Ret (Joined s) ->
  (forall default et tg c,
     DataStore.get E now (KSeq l) default et tg c w
     = DataStore.get E now (KOne (EStr s)) default et tg c w) /\
  (forall v e g c,
     DataStore.set E now (KSeq l) v e g c w
     = DataStore.set E now (KOne (EStr s)) v e g c w) /\
  (forall v e g c,
     DataStore.add E now (KSeq l) v e g c w
     = DataStore.add E now (KOne (EStr s)) v e g c w) /\
  (forall c,
     DataStore.delete E now (KSeq l) c w
     = DataStore.delete E now (KOne (EStr s)) c w).
Proof.
  rewrite makey_as_str.
  destruct (DataStore.makey_str (self_of w) l) as [s'|] eqn:Hs; [|done].
  intros [= <-]. repeat split; intros.
  - unfold DataStore.get, DataStore.encode. run. by rewrite Hs.
  - unfold DataStore.set, DataStore.encode. run. by rewrite Hs.
  - unfold DataStore.add, DataStore.encode. run. by rewrite Hs.
  - unfold DataStore.delete, DataStore.encode. run. by rewrite Hs.
Qed.

Lemma sequence_key_is_joined_key_witness :
  DataStore.get E0 5 (KSeq [EStr "Job.Foo"; EStr "a"]) PNone false false true
    cfg_world
  = DataStore.get E0 5 (KOne (EStr "cfg:Job.Foo:a")) PNone false false true
      cfg_world.
Proof.
  apply (sequence_key_is_joined_key E0 5 cfg_world
           [EStr "Job.Foo"; EStr "a"] "cfg:Job.Foo:a").
  reflexivity.
Defined.

(** ** Writing, then reading or deleting *)

Lemma find_set (E : engine) (t1 t2 : Z) (d : disk) (h : handle) (k : elt)
    (v : pyval) (e : option Z) (g : option string) :
  FanoutCache.find E t2 (FanoutCache.set E t1 d h k v e g) h k
  = if FanoutCache.live t2
         {| r_value := v; r_expire_time := Z.add t1 <$> e; r_tag := g |}
    then Some {| r_value := v; r_expire_time := Z.add t1 <$> e; r_tag := g |}
    else None.
Proof. unfold FanoutCache.find. by rewrite row_of_set. Qed.

Lemma find_set_ne (E : engine) (t1 t2 : Z) (d : disk) (h : handle)
    (k k' : elt) (v : pyval) (e : option Z) (g : option string) :
  k' <> k ->
  FanoutCache.find E t2 (FanoutCache.set E t1 d h k v e g) h k'
  = FanoutCache.find E t2 d h k'.
Proof. intros Hne. unfold FanoutCache.find. by rewrite row_of_set_ne. Qed.

Lemma live_expired (t1 t2 d : Z) (v : pyval) (g : option string) :
  t1 + d <= t2 ->
  FanoutCache.live t2
    {| r_value := v; r_expire_time := Some (t1 + d); r_tag := g |} = false.
Proof. intros Hle. unfold FanoutCache.live. simpl. apply Z.ltb_ge. lia. Qed.

(** X4: what [set] wrote is what [get] reads back.  With [e] the ttl in
    force ([ttl or self.expire]): while [e] seconds have not passed since the
    [set], [get] returns the value, and with [expire_time] and [tag] asked
    for also the time of the [set] plus [e], and the tag; once they have
    passed, [get] returns the default.  Every other key reads as before the
    [set]. *)
Theorem set_then_get (E : engine) (t1 t2 : Z) (w : world) (h : handle)
    (key : key_arg) (k : elt) (v X : pyval) (ttl : option Z)
    (tag : option string) (c1 c2 : bool) :
  Attr.cache (self_of w) = Some h ->
  DataStore.encode (self_of w) key = Ret k ->
  let w1 := (DataStore.set E t1 key v ttl tag c1 w).2 in
  let e := py_or ttl (Attr.expire (self_of w)) in
  ((forall d, e = Some d -> t2 < t1 + d) ->
   forall et tg,
     (DataStore.get E t2 key X et tg c2 w1).1
     = Ret (FanoutCache.shape et tg v (Z.add t1 <$> e) tag)) /\
  (forall d, e = Some d -> t1 + d <= t2 ->
     (DataStore.get E t2 key X false false c2 w1).1 = Ret (Plain X)) /\
  (forall key' k' et tg,
     DataStore.encode (self_of w) key' = Ret k' -> k' <> k ->
     (DataStore.get E t2 key' X et tg c2 w1).1
     = (DataStore.get E t2 key' X et tg c2 w).1).
Proof.
  intros Hcache Hk w1 e. subst w1 e.
  rewrite (set_run E w h Hcache t1 key k) by done. simpl.
  set (e := py_or ttl (Attr.expire (self_of w))).
  set (d1 := FanoutCache.set E t1 (disk_of w) h k v e tag).
  repeat split.
  - intros Hlive et tg.
    rewrite (get_run E (settle (negb c1) d1 w h) (with_open (negb c1) h)
               eq_refl t2 key k) by done.
    simpl. unfold FanoutCache.get.
    change (FanoutCache.find E t2 d1 (with_open (negb c1) h) k)
      with (FanoutCache.find E t2 d1 h k).
    unfold d1. rewrite find_set, live_written by done. done.
  - intros d He Hle.
    rewrite (get_run E (settle (negb c1) d1 w h) (with_open (negb c1) h)
               eq_refl t2 key k) by done.
    simpl. unfold FanoutCache.get.
    change (FanoutCache.find E t2 d1 (with_open (negb c1) h) k)
      with (FanoutCache.find E t2 d1 h k).
    unfold d1. rewrite find_set, He. simpl. by rewrite live_expired.
  - intros key' k' et tg Hk' Hne.
    rewrite (get_run E (settle (negb c1) d1 w h) (with_open (negb c1) h)
               eq_refl t2 key' k') by done.
    rewrite (get_run E w h Hcache t2 key' k') by done.
    simpl. unfold FanoutCache.get.
    change (FanoutCache.find E t2 d1 (with_open (negb c1) h) k')
      with (FanoutCache.find E t2 d1 h k').
    unfold d1. by rewrite find_set_ne.
Qed.

Lemma set_then_get_witness :
  (DataStore.get E0 129 (KOne (EStr "k")) PNone true true true
     (DataStore.set E0 100 (KOne (EStr "k")) (PInt 1) (Some 30) (Some "t")
        true timed_world).2).1
  = Ret (Triple (PInt 1) (Some 130) (Some "t")) /\
  (DataStore.get E0 130 (KOne (EStr "k")) PNone false false true
     (DataStore.set E0 100 (KOne (EStr "k")) (PInt 1) (Some 30) (Some "t")
        true timed_world).2).1
  = Ret (Plain PNone).
Proof.
  destruct (set_then_get E0 100 129 timed_world handle8 (KOne (EStr "k"))
              (EStr "k") (PInt 1) PNone (Some 30) (Some "t") true true
              eq_refl eq_refl) as (Hlive & _ & _).
  destruct (set_then_get E0 100 130 timed_world handle8 (KOne (EStr "k"))
              (EStr "k") (PInt 1) PNone (Some 30) (Some "t") true true
              eq_refl eq_refl) as (_ & Hdead & _).
  split.
  - apply (Hlive (fun d Hd => ltac:(injection Hd as <-; lia)) true true).
  - apply (Hdead 30 eq_refl). lia.
Defined.

(** X5: [delete] after [set].  While the ttl in force has not passed,
    [delete] of the key just written returns normally, the row is gone and
    [get] returns the default again.  Once it has passed - the ttl not being
    negative - [delete] raises [KeyError] although the row is still stored,
    and leaves it there. *)
Theorem set_then_delete (E : engine) (t1 t2 : Z) (w : world) (h : handle)
    (key : key_arg) (k : elt) (v : pyval) (ttl : option Z)
    (tag : option string) (c1 c2 : bool) :
  Attr.cache (self_of w) = Some h ->
  DataStore.encode (self_of w) key = Ret k ->
  let w1 := (DataStore.set E t1 key v ttl tag c1 w).2 in
  let e := py_or ttl (Attr.expire (self_of w)) in
  let r := DataStore.delete E t2 key c2 w1 in
  ((forall d, e = Some d -> t2 < t1 + d) ->
   r.1 = Ret tt /\
   FanoutCache.row_of E (disk_of r.2) h k = None /\
   forall X c, (DataStore.get E t2 key X false false c r.2).1 = Ret (Plain X)) /\
  (forall d, e = Some d -> 0 <= d -> t1 + d <= t2 ->
   r.1 = Exc (KeyError k) /\
   disk_of r.2 = disk_of w1 /\
   r_value <$> FanoutCache.row_of E (disk_of r.2) h k = Some v).
Proof.
  intros Hcache Hk w1 e r. subst w1 e r.
  rewrite (set_run E w h Hcache t1 key k) by done. simpl.
  set (e := py_or ttl (Attr.expire (self_of w))).
  set (d1 := FanoutCache.set E t1 (disk_of w) h k v e tag).
  set (w1 := settle (negb c1) d1 w h).
  assert (Hc1 : Attr.cache (self_of w1) = Some (with_open (negb c1) h))
    by reflexivity.
  split.
  - intros Hlive.
    assert (Hc : FanoutCache.contains E t2 (disk_of w1)
                   (with_open (negb c1) h) k = true).
    { rewrite contains_with_open. unfold FanoutCache.contains. simpl.
      unfold d1. by rewrite find_set, live_written. }
    destruct (delete_run_present E w1 _ Hc1 t2 key k c2 Hk Hc)
      as (d' & Hd & ->).
    destruct (delitem_present E t2 _ _ k Hc) as (d'' & Hd' & Hnone & _).
    rewrite Hd in Hd'. injection Hd' as <-. simpl.
    repeat split; try done.
    intros X c.
    rewrite (get_run E (settle (negb c2) d' w1 (with_open (negb c1) h))
               (with_open (negb c2) (with_open (negb c1) h)) eq_refl
               t2 key k) by done.
    simpl. unfold FanoutCache.get, FanoutCache.find.
    change (FanoutCache.row_of E d'
              (with_open (negb c2) (with_open (negb c1) h)) k)
      with (FanoutCache.row_of E d' (with_open (negb c1) h) k).
    by rewrite Hnone.
  - intros d He _ Hle.
    assert (Hc : FanoutCache.contains E t2 (disk_of w1)
                   (with_open (negb c1) h) k = false).
    { rewrite contains_with_open. unfold FanoutCache.contains. simpl.
      unfold d1. rewrite find_set, He. simpl. by rewrite live_expired. }
    rewrite (delete_run_absent E w1 _ Hc1 t2 key k c2 Hk Hc). simpl.
    repeat split; try done.
    unfold d1. by rewrite row_of_set.
Qed.

Lemma set_then_delete_witness :
  (DataStore.delete E0 129 (KOne (EStr "k")) true
     (DataStore.set E0 100 (KOne (EStr "k")) (PInt 1) (Some 30) None true
        timed_world).2).1 = Ret tt /\
  (DataStore.delete E0 130 (KOne (EStr "k")) true
     (DataStore.set E0 100 (KOne (EStr "k")) (PInt 1) (Some 30) None true
        timed_world).2).1 = Exc (KeyError (EStr "k")).
Proof.
  destruct (set_then_delete E0 100 129 timed_world handle8 (KOne (EStr "k"))
              (EStr "k") (PInt 1) (Some 30) None true true eq_refl eq_refl)
    as (Hlive & _).
  destruct (set_then_delete E0 100 130 timed_world handle8 (KOne (EStr "k"))
              (EStr "k") (PInt 1) (Some 30) None true true eq_refl eq_refl)
    as (_ & Hdead).
  split.
  - apply (Hlive (fun d Hd => ltac:(injection Hd as <-; lia))).
  - apply (Hdead 30 eq_refl); lia.
Defined.

(** ** Prefix queries over string keys *)

Lemma substring_all (s : string) : String.substring 0 (String.length s) s = s.
Proof. induction s as [|a s IH]; simpl; [done | by rewrite IH]. Qed.

(** Cutting a prefix off and putting it back gives the key again. *)
Lemma slice_from_prefix (p s : string) :
  startswith s p = true -> p +:+ slice_from (String.length p) s = s.
Proof.
  unfold startswith, slice_from. revert s.
  induction p as [|a p IH]; intros s Hp.
  - rewrite append_nil. simpl. rewrite Nat.sub_0_r. apply substring_all.
  - destruct s as [|b s]; simpl in Hp; [done|].
    destruct (ascii_dec a b) as [->|]; [|done].
    rewrite append_cons. simpl. f_equal. by apply IH.
Qed.

Lemma scan_keys_only (E : engine) (now : Z) (d : disk) (h : handle)
    (mk : string) (sk : bool) (ss : list string) :
  DataStore.scan E now d h mk true sk (EStr <$> ss)
  = Ret (OnlyKey <$> (reported mk sk
                        <$> List.filter (fun s => startswith s mk) ss)).
Proof.
  induction ss as [|s ss IH]; [done|].
  rewrite fmap_cons. cbn [DataStore.scan List.filter].
  rewrite IH. destruct (startswith s mk); reflexivity.
Qed.

Lemma scan_values (E : engine) (now : Z) (d : disk) (h : handle)
    (mk : string) (sk : bool) (ss : list string) :
  (forall s, s ∈ ss -> startswith s mk = true ->
     is_Some (FanoutCache.find E now d h (EStr s))) ->
  DataStore.scan E now d h mk false sk (EStr <$> ss)
  = Ret ((fun s => KeyValue (reported mk sk s) (value_at E now d h s))
           <$> List.filter (fun s => startswith s mk) ss).
Proof.
  induction ss as [|s ss IH]; intros Hlive; [done|].
  rewrite fmap_cons. cbn [DataStore.scan List.filter].
  rewrite IH by (intros s' Hs'; apply Hlive; by right).
  destruct (startswith s mk) eqn:Hs; [|done].
  destruct (Hlive s (list_elem_of_here _ _) Hs) as [r Hr].
  rewrite fmap_cons. unfold FanoutCache.getitem, value_at. cbn beta.
  rewrite Hr. reflexivity.
Qed.

(** In [keys_only] mode the scan returns only if every key is a string. *)
Lemma scan_keys_only_inv (E : engine) (now : Z) (d : disk) (h : handle)
    (mk : string) (sk : bool) (keys : list elt) (l : list match_item) :
  DataStore.scan E now d h mk true sk keys = Ret l ->
  exists ss, keys = EStr <$> ss.
Proof.
  revert l. induction keys as [|[s|z] keys IH]; intros l Hl.
  - by exists [].
  - cbn [DataStore.scan] in Hl.
    destruct (DataStore.scan E now d h mk true sk keys) as [l'|e] eqn:Hrest.
    + destruct (IH l' eq_refl) as [ss ->]. by exists (s :: ss).
    + by destruct (startswith s mk).
  - done.
Qed.

Lemma scan_keys_only_number (E : engine) (now : Z) (d : disk) (h : handle)
    (mk : string) (sk : bool) (keys : list elt) (z : Z) :
  ENum z ∈ keys ->
  DataStore.scan E now d h mk true sk keys = Exc AttributeError.
Proof.
  induction keys as [|[s|z'] keys IH]; intros Hin.
  - by apply elem_of_nil in Hin.
  - apply elem_of_cons in Hin as [?|Hin]; [done|].
    cbn [DataStore.scan]. rewrite IH by done. by destruct (startswith s mk).
  - done.
Qed.

Lemma makey_joined (self : Attr.t) (l : list elt) (s : string) :
  DataStore.makey self l false = Ret (Joined s) ->
  DataStore.makey_str self l = Ret s.
Proof.
  rewrite makey_as_str. destruct (DataStore.makey_str self l); [|done].
  by intros [= ->].
Qed.

(** When the scan raises, so does [get_startswith], before it has closed
    the handle. *)
Lemma get_startswith_run_exc (E : engine) (now : Z) (w : world) (h : handle)
    (k : key_arg) (joined : string)
    (match_part as_dict keys_only suffix_keys : bool) (e : exn) :
  Attr.cache (self_of w) = Some h ->
  DataStore.makey_str (self_of w) match k with KSeq a => a | KOne x => [x] end
  = Ret joined ->
  DataStore.scan E now (disk_of w) h
    (match_key_of (self_of w) joined match_part)
    keys_only suffix_keys (FanoutCache.iter (disk_of w) h) = Exc e ->
  DataStore.get_startswith E now (MKey k) match_part as_dict keys_only
    suffix_keys w
  = (Exc e, settle true (disk_of w) w h).
Proof.
  intros Hcache Hkey Hscan. unfold DataStore.get_startswith, settle. run.
  rewrite Hkey, Hcache. run.
  rewrite scan_with_open.
  change (FanoutCache.iter (disk_of w) (with_open true h))
    with (FanoutCache.iter (disk_of w) h).
  unfold match_key_of in Hscan. rewrite Hscan. reflexivity.
Qed.

(** X6: over a store whose keys are strings, [get_startswith] with
    [keys_only] returns exactly the keys that start with the match key (the
    joined elements, followed by the delimiter unless [match_part]), in the
    order of iteration, none missing and none added; it closes the handle
    and leaves the disk as it was. *)
Theorem prefix_query_keys (E : engine) (now : Z) (w : world) (h : handle)
    (k : key_arg) (joined : string) (match_part as_dict suffix_keys : bool)
    (ss : list string) :
  Attr.cache (self_of w) = Some h ->
  DataStore.makey (self_of w) match k with KSeq a => a | KOne x => [x] end
    false = Ret (Joined joined) ->
  FanoutCache.iter (disk_of w) h = EStr <$> ss ->
  let mk := match_key_of (self_of w) joined match_part in
  DataStore.get_startswith E now (MKey k) match_part as_dict true suffix_keys w
  = (Ret (Matches
            (OnlyKey <$> (reported mk suffix_keys
                            <$> List.filter (fun s => startswith s mk) ss))),
     settle false (disk_of w) w h).
Proof.
  intros Hcache Hkey%makey_joined Hiter mk.
  rewrite (get_startswith_run E now w h k joined match_part as_dict true
             suffix_keys
             (OnlyKey <$> (reported mk suffix_keys
                             <$> List.filter (fun s => startswith s mk) ss)))
    by (try done; rewrite Hiter; apply scan_keys_only).
  by rewrite andb_false_r.
Qed.

Lemma prefix_query_keys_witness :
  (DataStore.get_startswith E0 5 (MKey (KOne (EStr "Job.Foo"))) true false
     true true cfg_world).1
  = Ret (Matches [OnlyKey "Bar:b"; OnlyKey ":a"]).
Proof.
  rewrite (prefix_query_keys E0 5 cfg_world handle8 (KOne (EStr "Job.Foo"))
             "cfg:Job.Foo" true false true
             ["cfg:Job.FooBar:b"; "cfg:Job.Foo:a"] eq_refl eq_refl eq_refl).
  reflexivity.
Defined.

Lemma reported_suffix (mk : string) (ss : list string) :
  String.append mk
    <$> (reported mk true <$> List.filter (fun s => startswith s mk) ss)
  = List.filter (fun s => startswith s mk) ss.
Proof.
  induction ss as [|s ss IH]; [done|]. cbn [List.filter].
  destruct (startswith s mk) eqn:Hs; [|exact IH].
  rewrite !fmap_cons, IH. unfold reported. by rewrite slice_from_prefix.
Qed.

Lemma keys_of_only (xs : list string) : keys_of (OnlyKey <$> xs) = xs.
Proof.
  induction xs as [|x xs IH]; [done|].
  rewrite fmap_cons. unfold keys_of in *. simpl. by rewrite IH.
Qed.

Lemma reported_plain (mk : string) (xs : list string) :
  reported mk false <$> xs = xs.
Proof.
  induction xs as [|x xs IH]; [done|]. rewrite fmap_cons. by rewrite IH.
Qed.

(** X7: the keys returned under [suffix_keys] are the matching keys with
    the match key cut off: whenever the query with [keys_only] and
    [suffix_keys] returns, putting the match key back in front of each
    suffix gives, in the same order, the keys the query returns without
    [suffix_keys]. *)
Theorem prefix_query_suffixes (E : engine) (now : Z) (w : world) (h : handle)
    (k : key_arg) (joined : string) (match_part as_dict : bool)
    (l : list match_item) :
  Attr.cache (self_of w) = Some h ->
  DataStore.makey (self_of w) match k with KSeq a => a | KOne x => [x] end
    false = Ret (Joined joined) ->
  (DataStore.get_startswith E now (MKey k) match_part as_dict true true w).1
  = Ret (Matches l) ->
  (DataStore.get_startswith E now (MKey k) match_part as_dict true false w).1
  = Ret (Matches
           (OnlyKey
              <$> (String.append (match_key_of (self_of w) joined match_part)
                     <$> keys_of l))).
Proof.
  intros Hcache Hkey Hret.
  set (mk := match_key_of (self_of w) joined match_part) in *.
  destruct (DataStore.scan E now (disk_of w) h mk true true
              (FanoutCache.iter (disk_of w) h)) as [l'|e] eqn:Hscan.
  - destruct (scan_keys_only_inv _ _ _ _ _ _ _ _ Hscan) as [ss Hiter].
    rewrite (prefix_query_keys E now w h k joined match_part as_dict true ss)
      in Hret by done.
    rewrite (prefix_query_keys E now w h k joined match_part as_dict false ss)
      by done.
    simpl in *. injection Hret as <-. fold mk.
    by rewrite keys_of_only, reported_suffix, reported_plain.
  - rewrite (get_startswith_run_exc E now w h k joined match_part as_dict
               true true e Hcache (makey_joined _ _ _ Hkey) Hscan) in Hret.
    done.
Qed.

Lemma prefix_query_suffixes_witness :
  (DataStore.get_startswith E0 5 (MKey (KOne (EStr "Job.Foo"))) true false
     true false cfg_world).1
  = Ret (Matches [OnlyKey "cfg:Job.FooBar:b"; OnlyKey "cfg:Job.Foo:a"]).
Proof.
  apply (prefix_query_suffixes E0 5 cfg_world handle8 (KOne (EStr "Job.Foo"))
           "cfg:Job.Foo" true false [OnlyKey "Bar:b"; OnlyKey ":a"]);
    reflexivity.
Defined.

Lemma scan_values_missing (E : engine) (now : Z) (d : disk) (h : handle)
    (mk : string) (sk : bool) (pre post : list string) (s : string) :
  (forall s', s' ∈ pre -> startswith s' mk = true ->
     is_Some (FanoutCache.find E now d h (EStr s'))) ->
  startswith s mk = true ->
  FanoutCache.find E now d h (EStr s) = None ->
  DataStore.scan E now d h mk false sk (EStr <$> (pre ++ s :: post))
  = Exc (KeyError (EStr s)).
Proof.
  intros Hpre Hs Hnone. induction pre as [|p pre IH].
  - rewrite app_nil_l, fmap_cons. cbn [DataStore.scan].
    rewrite Hs. unfold FanoutCache.getitem. by rewrite Hnone.
  - rewrite <- app_comm_cons, fmap_cons. cbn [DataStore.scan].
    rewrite IH by (intros s' Hs'; apply Hpre; by right).
    destruct (startswith p mk) eqn:Hp; [|done].
    destruct (Hpre p (list_elem_of_here _ _) Hp) as [r Hr].
    unfold FanoutCache.getitem. by rewrite Hr.
Qed.

(** X8: over a store whose keys are strings, [get_startswith] without
    [keys_only] pairs every matching key, in the order of iteration, with the
    value stored under it, provided each matching key has a live row.  At
    the first matching key that is listed but has no live row it raises
    [KeyError] for that key and leaves the handle open. *)
Theorem prefix_query_values (E : engine) (now : Z) (w : world) (h : handle)
    (k : key_arg) (joined : string) (match_part suffix_keys : bool)
    (ss : list string) :
  Attr.cache (self_of w) = Some h ->
  DataStore.makey (self_of w) match k with KSeq a => a | KOne x => [x] end
    false = Ret (Joined joined) ->
  FanoutCache.iter (disk_of w) h = EStr <$> ss ->
  let mk := match_key_of (self_of w) joined match_part in
  ((forall s, s ∈ ss -> startswith s mk = true ->
      is_Some (FanoutCache.find E now (disk_of w) h (EStr s))) ->
   DataStore.get_startswith E now (MKey k) match_part false false
     suffix_keys w
   = (Ret (Matches
             ((fun s => KeyValue (reported mk suffix_keys s)
                          (value_at E now (disk_of w) h s))
                <$> List.filter (fun s => startswith s mk) ss)),
      settle false (disk_of w) w h)) /\
  (forall pre s post as_dict,
     ss = pre ++ s :: post ->
     (forall s', s' ∈ pre -> startswith s' mk = true ->
        is_Some (FanoutCache.find E now (disk_of w) h (EStr s'))) ->
     startswith s mk = true ->
     FanoutCache.find E now (disk_of w) h (EStr s) = None ->
     DataStore.get_startswith E now (MKey k) match_part as_dict false
       suffix_keys w
     = (Exc (KeyError (EStr s)), settle true (disk_of w) w h)).
Proof.
  intros Hcache Hkey%makey_joined Hiter mk. split.
  - intros Hlive.
    by rewrite (get_startswith_run E now w h k joined match_part false false
                  suffix_keys
                  ((fun s => KeyValue (reported mk suffix_keys s)
                               (value_at E now (disk_of w) h s))
                     <$> List.filter (fun s => startswith s mk) ss))
      by (try done; rewrite Hiter; by apply scan_values).
  - intros pre s post as_dict -> Hpre Hs Hnone.
    apply (get_startswith_run_exc E now w h k joined); try done.
    rewrite Hiter. by apply scan_values_missing.
Qed.

Lemma prefix_query_values_witness :
  (DataStore.get_startswith E0 5 (MKey (KSeq [EStr "Job.Foo"])) false false
     false true cfg_world).1
  = Ret (Matches [KeyValue "a" (PInt 1)]) /\
  (DataStore.get_startswith E0 200 (MKey (KOne (EStr "k"))) true false false
     false
     (DataStore.set E0 100 (KOne (EStr "k")) (PInt 1) None None true
        timed_world).2).1
  = Exc (KeyError (EStr "k")).
Proof.
  split.
  - rewrite (proj1 (prefix_query_values E0 5 cfg_world handle8
                      (KSeq [EStr "Job.Foo"]) "cfg:Job.Foo" false true
                      ["cfg:Job.FooBar:b"; "cfg:Job.Foo:a"]
                      eq_refl eq_refl eq_refl)).
    + reflexivity.
    + intros s Hs _.
      apply elem_of_cons in Hs as [->|Hs]; [by eexists|].
      apply elem_of_cons in Hs as [->|Hs]; [by eexists|].
      by apply elem_of_nil in Hs.
  - rewrite (proj2 (prefix_query_values E0 200
                      (DataStore.set E0 100 (KOne (EStr "k")) (PInt 1) None
                         None true timed_world).2
                      handle8 (KOne (EStr "k")) "k" true false ["k"]
                      eq_refl eq_refl eq_refl) [] "k" [] false eq_refl).
    + reflexivity.
    + intros s' Hs'. by apply elem_of_nil in Hs'.
    + reflexivity.
    + reflexivity.
Defined.

(** ** Keys that are numbers *)

Lemma assoc_store_has_key {V : Type} (k : elt) (r : V) (s : list (elt * V)) :
  k ∈ (assoc_store k r s).*1.
Proof.
  induction s as [|[k' r'] s IH]; simpl.
  - apply list_elem_of_here.
  - destruct (decide (k = k')); simpl.
    + apply list_elem_of_here.
    + by apply list_elem_of_further.
Qed.

Lemma iter_has_key (d : disk) (h : handle) (i : nat) (k : elt) :
  (i < count h)%nat -> k ∈ (FanoutCache.rows d h i).*1 ->
  k ∈ FanoutCache.iter d h.
Proof.
  intros Hi Hk. unfold FanoutCache.iter, FanoutCache.shards.
  apply list_elem_of_In, in_flat_map.
  exists (FanoutCache.rows d h i). split.
  - apply in_map, in_seq. lia.
  - by apply list_elem_of_In.
Qed.

Lemma iter_set (E : engine) (t : Z) (d : disk) (h : handle) (k : elt)
    (v : pyval) (e : option Z) (g : option string) :
  count h <> 0%nat -> k ∈ FanoutCache.iter (FanoutCache.set E t d h k v e g) h.
Proof.
  intros Hn. apply (iter_has_key _ _ (FanoutCache.index E h k)).
  - unfold FanoutCache.index. by apply Nat.mod_upper_bound.
  - unfold FanoutCache.set. rewrite rows_put_rows. apply assoc_store_has_key.
Qed.

Lemma scan_number_raises (E : engine) (now : Z) (d : disk) (h : handle)
    (mk : string) (ko sk : bool) (keys : list elt) (z : Z) :
  ENum z ∈ keys -> raises (DataStore.scan E now d h mk ko sk keys) = true.
Proof.
  induction keys as [|[s|z'] keys IH]; intros Hin.
  - by apply elem_of_nil in Hin.
  - apply elem_of_cons in Hin as [?|Hin]; [done|].
    cbn [DataStore.scan]. specialize (IH Hin).
    destruct (DataStore.scan E now d h mk ko sk keys); [done|].
    destruct (startswith s mk); [|done].
    destruct ko; [done|]. by destruct (FanoutCache.getitem _ _ _ _ _).
  - done.
Qed.

(** X9: a number used as a key breaks the prefix operations.  Once [set]
    has stored a value under a number, with a ttl in force that is [None] or
    not negative, every [get_startswith] on the store
    raises, whatever prefix is asked for: the scan calls [startswith] on each
    key it lists.  With [keys_only] the error is [AttributeError], and so it
    is for [clear_keys], which then has deleted nothing and leaves the
    handle open. *)
Theorem numeric_key_breaks_prefix_queries (E : engine) (t now : Z)
    (w : world) (h : handle) (z : Z) (v : pyval) (ttl : option Z)
    (tag : option string) (c : bool) (k : key_arg) (joined : string) :
  Attr.cache (self_of w) = Some h ->
  count h <> 0%nat ->
  not_negative (py_or ttl (Attr.expire (self_of w))) ->
  DataStore.makey (self_of w) match k with KSeq a => a | KOne x => [x] end
    false = Ret (Joined joined) ->
  let w1 := (DataStore.set E t (KOne (ENum z)) v ttl tag c w).2 in
  (forall part as_dict keys_only suffix,
     raises (DataStore.get_startswith E now (MKey k) part as_dict keys_only
               suffix w1).1 = true) /\
  (forall part as_dict suffix,
     (DataStore.get_startswith E now (MKey k) part as_dict true suffix w1).1
     = Exc AttributeError) /\
  (forall c',
     (DataStore.clear_keys E now (MKey k) c' w1).1 = Exc AttributeError /\
     disk_of (DataStore.clear_keys E now (MKey k) c' w1).2 = disk_of w1 /\
     left_open (DataStore.clear_keys E now (MKey k) c' w1).2).
Proof.
  intros Hcache Hn _ Hkey%makey_joined w1. subst w1.
  rewrite (set_run E w h Hcache t (KOne (ENum z)) (ENum z)) by done.
  cbn [snd].
  set (d1 := FanoutCache.set E t (disk_of w) h (ENum z) v _ tag).
  set (w1 := settle (negb c) d1 w h).
  assert (Hin : ENum z ∈ FanoutCache.iter (disk_of w1) (with_open (negb c) h))
    by (by apply (iter_set E t (disk_of w) h (ENum z))).
  assert (Hc1 : Attr.cache (self_of w1) = Some (with_open (negb c) h))
    by reflexivity.
  assert (Hexc : forall part as_dict suffix,
            DataStore.get_startswith E now (MKey k) part as_dict true suffix w1
            = (Exc AttributeError,
               settle true (disk_of w1) w1 (with_open (negb c) h))).
  { intros part as_dict suffix.
    apply (get_startswith_run_exc E now w1 _ k joined); try done.
    by apply (scan_keys_only_number _ _ _ _ _ _ _ z). }
  repeat split.
  - intros part as_dict keys_only suffix.
    pose proof (scan_number_raises E now (disk_of w1) (with_open (negb c) h)
                  (match_key_of (self_of w1) joined part) keys_only suffix
                  _ z Hin) as Hr.
    destruct (DataStore.scan E now (disk_of w1) (with_open (negb c) h)
                (match_key_of (self_of w1) joined part) keys_only suffix
                (FanoutCache.iter (disk_of w1) (with_open (negb c) h)))
      as [l|e] eqn:Hscan; [done|].
    by rewrite (get_startswith_run_exc E now w1 _ k joined part as_dict
                  keys_only suffix e Hc1 Hkey Hscan).
  - intros part as_dict suffix. by rewrite Hexc.
  - unfold DataStore.clear_keys, mbind, M_bind. by rewrite Hexc.
  - unfold DataStore.clear_keys, mbind, M_bind. by rewrite Hexc.
  - unfold DataStore.clear_keys, mbind, M_bind. by rewrite Hexc.
Qed.

Lemma numeric_key_breaks_prefix_queries_witness :
  (DataStore.clear_keys E0 1 (MKey (KOne (EStr "Job.Foo"))) true
     (DataStore.set E0 0 (KOne (ENum 5)) (PInt 1) None None true
        cfg_world).2).1
  = Exc AttributeError.
Proof.
  apply (numeric_key_breaks_prefix_queries E0 0 1 cfg_world handle8 5 (PInt 1)
           None None true (KOne (EStr "Job.Foo")) "cfg:Job.Foo" eq_refl).
  - simpl. discriminate.
  - intros d. simpl. discriminate.
  - reflexivity.
Defined.

(** ** Deleting by prefix *)

Lemma delitem_ret (E : engine) (now : Z) (d d' : disk) (h : handle)
    (k : elt) :
  FanoutCache.delitem E now d h k = Ret d' ->
  FanoutCache.row_of E d' h k = None /\
  forall k', k' <> k -> FanoutCache.row_of E d' h k' = FanoutCache.row_of E d h k'.
Proof.
  intros Hd. destruct (FanoutCache.contains E now d h k) eqn:Hc.
  - destruct (delitem_present E now d h k Hc) as (d'' & Hd' & Hnone & Hoth).
    rewrite Hd in Hd'. by injection Hd' as <-.
  - unfold FanoutCache.delitem in Hd. by rewrite Hc in Hd.
Qed.

Lemma del_loop_ret (E : engine) (now : Z) (w : world) (h : handle)
    (ks : list elt) (b : bool) (d : disk) (u : unit) (w2 : world) :
  DataStore.del_loop E now ks (settle b d w h) = (Ret u, w2) ->
  exists b' d2,
    w2 = settle b' d2 w h /\
    (forall k, k ∈ ks -> FanoutCache.row_of E d2 h k = None) /\
    (forall k', k' ∉ ks ->
       FanoutCache.row_of E d2 h k' = FanoutCache.row_of E d h k').
Proof.
  revert b d. induction ks as [|key ks IH]; intros b d Hrun.
  - injection Hrun as _ <-. exists b, d. repeat split; try done.
    intros k Hk. by apply elem_of_nil in Hk.
  - cbn [DataStore.del_loop] in Hrun. unfold settle in Hrun.
    run_in Hrun.
    rewrite (delitem_with_open E true now d (with_open b h) key),
      (delitem_with_open E b now d h key) in Hrun.
    destruct (FanoutCache.delitem E now d h key) as [d1|e] eqn:Hdel; [|done].
    destruct (delitem_ret E now d d1 h key Hdel) as [Hnone Hoth].
    destruct (IH true d1 Hrun) as (b' & d2 & -> & Hgone & Hkept).
    exists b', d2. repeat split; try done.
    + intros k [->|Hk]%elem_of_cons; [|by apply Hgone].
      destruct (decide (key ∈ ks)) as [Hin|Hin]; [by apply Hgone|].
      by rewrite Hkept.
    + intros k' Hk'. rewrite Hkept, Hoth; try done.
      * intros ->. apply Hk'. by left.
      * intros Hin. apply Hk'. by right.
Qed.

Lemma elem_of_filter_str (f : string -> bool) (ss : list string) (s : string) :
  EStr s ∈ EStr <$> List.filter f ss <-> s ∈ ss /\ f s = true.
Proof.
  rewrite list_elem_of_fmap. split.
  - intros (s' & [= <-] & Hin%list_elem_of_In%filter_In).
    destruct Hin as [Hin Hf]. split; [by apply list_elem_of_In | done].
  - intros [Hin Hf]. exists s. split; [done|].
    apply list_elem_of_In, filter_In. split; [by apply list_elem_of_In | done].
Qed.

(** X10: when [clear_keys] returns normally, every listed key that starts
    with the joined prefix followed by the delimiter has lost its row, every
    string key that does not start with it has kept its row, and with
    [close=True] the handle is closed. *)
Theorem clear_keys_removes_prefix (E : engine) (now : Z) (w w' : world)
    (h : handle) (k : key_arg) (joined : string) (c : bool) (u : unit) :
  Attr.cache (self_of w) = Some h ->
  DataStore.makey (self_of w) match k with KSeq a => a | KOne x => [x] end
    false = Ret (Joined joined) ->
  DataStore.clear_keys E now (MKey k) c w = (Ret u, w') ->
  let mk := joined +:+ Attr.delim (self_of w) in
  (forall s, EStr s ∈ FanoutCache.iter (disk_of w) h ->
     startswith s mk = true ->
     FanoutCache.row_of E (disk_of w') h (EStr s) = None) /\
  (forall s, startswith s mk = false ->
     FanoutCache.row_of E (disk_of w') h (EStr s)
     = FanoutCache.row_of E (disk_of w) h (EStr s)) /\
  (c = true -> closed w').
Proof.
  intros Hcache Hkey Hrun mk.
  unfold DataStore.clear_keys in Hrun. peel Hrun.
  destruct (DataStore.scan E now (disk_of w) h
              (match_key_of (self_of w) joined false) true false
              (FanoutCache.iter (disk_of w) h)) as [l|e] eqn:Hscan.
  2: { by rewrite (get_startswith_run_exc E now w h k joined false false
                     true false e Hcache (makey_joined _ _ _ Hkey) Hscan)
         in H. }
  destruct (scan_keys_only_inv _ _ _ _ _ _ _ _ Hscan) as [ss Hiter].
  rewrite (prefix_query_keys E now w h k joined false false false ss)
    in H by done.
  injection H as <- <-.
  change (match_key_of (self_of w) joined false) with mk in *.
  unfold DataStore.iter_matches in H0.
  rewrite keys_of_only, reported_plain in H0.
  destruct (del_loop_ret E now w h _ _ _ _ _ H0) as (b' & d2 & -> & Hgone & Hkept).
  assert (Hw' : w' = settle (if c then false else b') d2 w h).
  { destruct c; run_in Hrun; by injection Hrun as <-. }
  subst w'. simpl. repeat split.
  - intros s Hin Hs. apply Hgone. apply elem_of_filter_str. split; [|done].
    rewrite Hiter in Hin. apply list_elem_of_fmap in Hin as (s' & [= <-] & Hs').
    done.
  - intros s Hs. apply Hkept. intros [_ Hs']%elem_of_filter_str.
    change (startswith s mk = true) in Hs'. by rewrite Hs in Hs'.
  - by intros ->.
Qed.

Lemma clear_keys_removes_prefix_witness :
  FanoutCache.row_of E0
    (disk_of (DataStore.clear_keys E0 5 (MKey (KSeq [EStr "Job.Foo"])) true
                cfg_world).2) handle8 (EStr "cfg:Job.Foo:a") = None /\
  FanoutCache.row_of E0
    (disk_of (DataStore.clear_keys E0 5 (MKey (KSeq [EStr "Job.Foo"])) true
                cfg_world).2) handle8 (EStr "cfg:Job.FooBar:b") = Some row_b.
Proof.
  destruct (clear_keys_removes_prefix E0 5 cfg_world
              (DataStore.clear_keys E0 5 (MKey (KSeq [EStr "Job.Foo"])) true
                 cfg_world).2
              handle8 (KSeq [EStr "Job.Foo"]) "cfg:Job.Foo" true tt
              eq_refl eq_refl eq_refl) as (Hgone & Hkept & _).
  split.
  - apply Hgone; [|reflexivity].
    change (FanoutCache.iter (disk_of cfg_world) handle8)
      with [EStr "cfg:Job.FooBar:b"; EStr "cfg:Job.Foo:a"].
    apply list_elem_of_further, list_elem_of_here.
  - rewrite Hkept; reflexivity.
Defined.

(** ** Listing and clearing *)

Lemma items_loop_run (E : engine) (now : Z) (w : world) (h : handle)
    (d : disk) (keys : list elt) :
  DataStore.items_loop E now keys (settle true d w h)
  = (Ret ((fun k => (k, FanoutCache.get E now d h k PNone false false))
            <$> keys),
     settle true d w h).
Proof.
  induction keys as [|key keys IH]; [done|].
  cbn [DataStore.items_loop]. unfold mbind at 1, M_bind at 1.
  rewrite (get_run E (settle true d w h) (with_open true h) eq_refl now
             (KOne key) key) by done.
  cbn [negb]. unfold mbind, M_bind.
  change (settle true (disk_of (settle true d w h)) (settle true d w h)
            (with_open true h)) with (settle true d w h).
  rewrite IH. reflexivity.
Qed.

Lemma length_iter (d : disk) (h : handle) :
  length (FanoutCache.iter d h) = FanoutCache.len d h.
Proof.
  unfold FanoutCache.iter, FanoutCache.len.
  induction (FanoutCache.shards d h) as [|s l IH]; [done|].
  simpl. by rewrite length_app, length_map, IH.
Qed.

(** X12: [items] only reads.  It returns one pair for every key the handle
    lists, in the order of iteration - as many as [len] counts - each with
    what [get] returns for that key, which is [None] for a key whose row is
    no longer live; the disk is as before and the handle is closed.  With
    [as_dict] the same pairs are returned as a dict. *)
Theorem items_lists_every_key (E : engine) (now : Z) (w : world) (h : handle)
    (as_dict : bool) :
  Attr.cache (self_of w) = Some h ->
  let l := item_pairs E now (disk_of w) h in
  DataStore.items E now as_dict w
  = (Ret (if as_dict then PairDict (dict_of l) else Pairs l),
     settle false (disk_of w) w h) /\
  l.*1 = FanoutCache.iter (disk_of w) h /\
  length l = FanoutCache.len (disk_of w) h /\
  (forall k g, (k, g) ∈ l ->
     g = Plain (default PNone
                  (r_value <$> FanoutCache.find E now (disk_of w) h k))).
Proof.
  intros Hcache l. subst l. repeat split.
  - unfold DataStore.items. unfold mbind at 1, M_bind at 1.
    unfold on_cache. run. rewrite Hcache. run.
    pose proof (items_loop_run E now w h (disk_of w)
                  (FanoutCache.iter (disk_of w) h)) as Hloop.
    unfold settle in Hloop. simpl in Hloop.
    change (FanoutCache.iter (disk_of w) (with_open true h))
      with (FanoutCache.iter (disk_of w) h).
    rewrite Hloop. run. reflexivity.
  - unfold item_pairs. rewrite <- list_fmap_compose.
    induction (FanoutCache.iter (disk_of w) h) as [|k ks IH]; [done|].
    rewrite fmap_cons. simpl. by rewrite IH.
  - unfold item_pairs. by rewrite length_fmap, length_iter.
  - unfold item_pairs. intros k g (k' & [= -> ->] & _)%list_elem_of_fmap.
    unfold FanoutCache.get. by destruct (FanoutCache.find E now _ h k').
Qed.

Lemma items_lists_every_key_witness :
  (DataStore.items E0 5 false cfg_world).1
  = Ret (Pairs [(EStr "cfg:Job.FooBar:b", Plain (PInt 2));
                (EStr "cfg:Job.Foo:a", Plain (PInt 1))]).
Proof.
  rewrite (proj1 (items_lists_every_key E0 5 cfg_world handle8 false eq_refl)).
  reflexivity.
Defined.

Lemma clear_run (w : world) (h : handle) (c : bool) :
  Attr.cache (self_of w) = Some h ->
  DataStore.clear c w
  = (Ret tt, settle (negb c) (FanoutCache.clear (disk_of w) h).2 w h).
Proof.
  intros Hcache. unfold DataStore.clear, settle. run. rewrite Hcache. run.
  by destruct c.
Qed.

(** X11: [clear] returns normally and leaves the handle with nothing to
    list: [len] is zero, [items] returns the empty list and, the shard count
    not being zero, [get] returns the default for every key.  [clear_all]
    does the same and closes the handle. *)
Theorem clear_empties_the_store (E : engine) (now : Z) (w : world)
    (h : handle) (c : bool) :
  Attr.cache (self_of w) = Some h ->
  let r := DataStore.clear c w in
  r.1 = Ret tt /\
  FanoutCache.iter (disk_of r.2) h = [] /\
  FanoutCache.len (disk_of r.2) h = 0%nat /\
  (DataStore.items E now false r.2).1 = Ret (Pairs []) /\
  (count h <> 0%nat ->
   forall key k X c',
     DataStore.encode (self_of w) key = Ret k ->
     (DataStore.get E now key X false false c' r.2).1 = Ret (Plain X)) /\
  (DataStore.clear_all w).1 = Ret tt /\
  closed (DataStore.clear_all w).2 /\
  disk_of (DataStore.clear_all w).2 = disk_of r.2.
Proof.
  intros Hcache r. subst r. unfold DataStore.clear_all.
  rewrite !(clear_run w h) by done. cbn [fst snd].
  set (d' := (FanoutCache.clear (disk_of w) h).2).
  assert (Hrows : forall i, (i < count h)%nat -> FanoutCache.rows d' h i = [])
    by (intros i Hi; by apply rows_clear).
  destruct (iter_empty d' h Hrows) as [Hiter Hlen].
  repeat split; try done.
  - rewrite (proj1 (items_lists_every_key E now (settle (negb c) d' w h)
                      (with_open (negb c) h) false eq_refl)).
    unfold item_pairs. cbn [fst disk_of settle].
    change (FanoutCache.iter d' (with_open (negb c) h))
      with (FanoutCache.iter d' h).
    by rewrite Hiter.
  - intros Hn key k X c' Hk.
    rewrite (get_run E (settle (negb c) d' w h) (with_open (negb c) h)
               eq_refl now key k) by done.
    cbn [fst disk_of settle]. unfold FanoutCache.get, FanoutCache.find,
      FanoutCache.row_of.
    change (FanoutCache.rows d' (with_open (negb c) h)
              (FanoutCache.index E (with_open (negb c) h) k))
      with (FanoutCache.rows d' h (FanoutCache.index E h k)).
    rewrite Hrows; [done|]. unfold FanoutCache.index.
    by apply Nat.mod_upper_bound.
Qed.

Lemma clear_empties_the_store_witness :
  (DataStore.get E0 5 (KSeq [EStr "Job.Foo"; EStr "a"]) (PStr "gone") false
     false true (DataStore.clear true cfg_world).2).1
  = Ret (Plain (PStr "gone")).
Proof.
  destruct (clear_empties_the_store E0 5 cfg_world handle8 true eq_refl)
    as (_ & _ & _ & _ & Hget & _).
  apply (Hget ltac:(simpl; discriminate) (KSeq [EStr "Job.Foo"; EStr "a"])
           (EStr "cfg:Job.Foo:a")).
  reflexivity.
Defined.

(** ** Writing a whole dict *)




Lemma set_raises (E : engine) (now : Z) (w : world) (key : key_arg)
    (v : pyval) (ttl : option Z) (g : option string) (c : bool) (e : exn) :
  DataStore.encode (self_of w) key = Exc e ->
  DataStore.set E now key v ttl g c w = (Exc e, w) /\
  DataStore.add E now key v ttl g c w = (Exc e, w).
Proof.
  intros He. unfold DataStore.set, DataStore.add. run. by rewrite He.
Qed.










(** ** Copying between two directories *)

Section Copy.
Variable E : engine.
Variables (src dst : handle).
Hypothesis Hdir : directory src <> directory dst.

Lemma rows_put_rows_other (d : disk) (i j : nat) (s : shard) :
  FanoutCache.rows (FanoutCache.put_rows d dst i s) src j
  = FanoutCache.rows d src j.
Proof.
  unfold FanoutCache.rows, FanoutCache.put_rows.
  rewrite lookup_insert_ne; [done|]. intros [= Hd _]. by destruct Hdir.
Qed.

Lemma rows_clear_other (d : disk) (j : nat) :
  FanoutCache.rows (FanoutCache.clear d dst).2 src j = FanoutCache.rows d src j.
Proof.
  unfold FanoutCache.clear, FanoutCache.map_shards. simpl.
  induction (seq 0 (count dst)) as [|i l IH]; [done|].
  cbn [fold_right]. by rewrite rows_put_rows_other.
Qed.

Lemma rows_set_other (now : Z) (d : disk) (k : elt) (v : pyval)
    (e : option Z) (g : option string) (j : nat) :
  FanoutCache.rows (FanoutCache.set E now d dst k v e g) src j
  = FanoutCache.rows d src j.
Proof. unfold FanoutCache.set. apply rows_put_rows_other. Qed.

(** What the source handle reads depends on its own rows only. *)
Lemma find_same_rows (now : Z) (d d' : disk) (k : elt) :
  (forall j, FanoutCache.rows d' src j = FanoutCache.rows d src j) ->
  FanoutCache.find E now d' src k = FanoutCache.find E now d src k.
Proof.
  intros Hrows. unfold FanoutCache.find, FanoutCache.row_of. by rewrite Hrows.
Qed.

Lemma iter_same_rows (d d' : disk) :
  (forall j, FanoutCache.rows d' src j = FanoutCache.rows d src j) ->
  FanoutCache.iter d' src = FanoutCache.iter d src.
Proof.
  intros Hrows. unfold FanoutCache.iter, FanoutCache.shards. f_equal.
  apply map_ext. intros j. apply Hrows.
Qed.

Lemma copy_loop_other (now : Z) (d0 : disk) (keys : list elt) (d : disk) :
  (forall j, FanoutCache.rows d src j = FanoutCache.rows d0 src j) ->
  exists d',
    DataStore.copy_loop E now src dst keys d = Ret d' /\
    (forall j, FanoutCache.rows d' src j = FanoutCache.rows d0 src j) /\
    (forall k, k ∈ keys ->
       FanoutCache.row_of E d' dst k = Some (copied_row E now d0 src k)) /\
    (forall k, k ∉ keys ->
       FanoutCache.row_of E d' dst k = FanoutCache.row_of E d dst k).
Proof.
  revert d. induction keys as [|key keys IH]; intros d Hrows.
  - exists d. repeat split; try done. intros k Hk. by apply elem_of_nil in Hk.
  - cbn [DataStore.copy_loop]. unfold FanoutCache.get.
    rewrite (find_same_rows now d0 d key Hrows).
    set (r := copied_row E now d0 src key).
    assert (Hstep : exists d1,
              d1 = FanoutCache.set E now d dst key (r_value r)
                     (match FanoutCache.find E now d0 src key with
                      | Some r0 => r_expire_time r0
                      | None => None
                      end) (r_tag r) /\
              FanoutCache.row_of E d1 dst key = Some r).
    { eexists. split; [done|]. rewrite row_of_set. unfold r, copied_row.
      by destruct (FanoutCache.find E now d0 src key). }
    destruct Hstep as (d1 & Hd1 & Hrow1).
    destruct (IH d1) as (d' & Hrun & Hsrc & Hin & Hout).
    { intros j. rewrite Hd1, rows_set_other. apply Hrows. }
    exists d'. split.
    { rewrite <- Hrun, Hd1. unfold r, copied_row.
      by destruct (FanoutCache.find E now d0 src key). }
    split; [done|]. split.
    + intros k [->|Hk]%elem_of_cons; [|by apply Hin].
      destruct (decide (key ∈ keys)) as [Hk|Hk]; [by apply Hin|].
      by rewrite Hout.
    + intros k Hk. rewrite Hout by (intros ?; apply Hk; by right).
      rewrite Hd1. apply row_of_set_ne. intros ->. apply Hk. by left.
Qed.
End Copy.

(** X15: [copy_cache] into a cache on another directory leaves the source
    as it was and gives the destination one row for every key the source
    lists, and no other row.  A key with a live row is copied with its value
    and tag as they are, and expires [expire_time] seconds after the copy,
    where [expire_time] is the time at which the source row expires; a key
    that is listed but has no live row is stored with the value [None], no
    expiration and no tag. *)
Theorem copy_cache_across_directories (E : engine) (now : Z)
    (src dst : handle) (d : disk) :
  directory src <> directory dst ->
  count dst <> 0%nat ->
  exists d',
    DataStore.copy_cache E now src dst d = Ret d' /\
    FanoutCache.iter d' src = FanoutCache.iter d src /\
    (forall t k, FanoutCache.find E t d' src k = FanoutCache.find E t d src k) /\
    (forall k, k ∈ FanoutCache.iter d src ->
       FanoutCache.row_of E d' dst k = Some (copied_row E now d src k)) /\
    (forall k, k ∉ FanoutCache.iter d src ->
       FanoutCache.row_of E d' dst k = None).
Proof.
  intros Hdir Hn. unfold DataStore.copy_cache.
  set (d1 := (FanoutCache.clear d dst).2).
  assert (Hrows : forall j, FanoutCache.rows d1 src j = FanoutCache.rows d src j)
    by (intros j; by apply rows_clear_other).
  rewrite (iter_same_rows src d d1 Hrows).
  destruct (copy_loop_other E src dst Hdir now d (FanoutCache.iter d src) d1
              Hrows) as (d' & Hrun & Hsrc & Hin & Hout).
  exists d'. repeat split; try done.
  - by apply iter_same_rows.
  - intros t k. by apply find_same_rows.
  - intros k Hk. rewrite Hout by done. unfold FanoutCache.row_of, d1.
    rewrite rows_clear; [done | done |]. unfold FanoutCache.index.
    by apply Nat.mod_upper_bound.
Qed.

Lemma copy_cache_across_directories_witness :
  exists d',
    DataStore.copy_cache E0 50 handle2 other_handle (disk_of tagged_world)
    = Ret d' /\
    FanoutCache.row_of E0 d' other_handle (EStr "bb")
    = Some {| r_value := PInt 2; r_expire_time := Some 170;
              r_tag := Some "t2" |}.
Proof.
  destruct (copy_cache_across_directories E0 50 handle2 other_handle
              (disk_of tagged_world)) as (d' & Hrun & _ & _ & Hin & _).
  - simpl. discriminate.
  - simpl. discriminate.
  - exists d'. split; [exact Hrun|]. rewrite Hin; [reflexivity|].
    change (FanoutCache.iter (disk_of tagged_world) handle2)
      with [EStr "bb"; EStr "a"].
    apply list_elem_of_here.
Defined.

(** ** Re-initialising the cache *)

(** X16: [init_cache] without a cache object copies nothing and leaves the
    disk as it is whenever the shard argument is 0 or equals the [shards]
    attribute, or the old cache is [None] or empty: it then only replaces the
    handle by a new, closed one on the same path, with the shard count and
    timeout given (the attribute where 0 is given). *)
Theorem init_cache_without_copy (E : engine) (now : Z) (shards : nat)
    (timeout : Q) (w : world) :
  count (built (self_of w) shards timeout) <> 0%nat ->
  shards = 0%nat \/ shards = Attr.shards (self_of w)
  \/ DataStore.truthy_cache (disk_of w) (Attr.cache (self_of w)) = false ->
  DataStore.init_cache E now shards timeout None w
  = (Ret tt,
     {| disk_of := disk_of w;
        self_of := Attr.with_cache (Some (built (self_of w) shards timeout))
                     (self_of w) |}).
Proof.
  intros Hn Hcase.
  destruct (init_cache_run E now shards timeout w Hn) as (d' & -> & Hd').
  f_equal. f_equal.
  destruct (Attr.cache (self_of w)) as [old|]; [|done].
  destruct (DataStore.truthy_cache (disk_of w) (Some old)) eqn:Ht; [|done].
  assert (Heq : (count (built (self_of w) shards timeout)
                 =? Attr.shards (self_of w))%nat = true).
  { apply Nat.eqb_eq. unfold built. simpl.
    destruct Hcase as [->|[->|?]]; [done| |done].
    by destruct (Nat.eqb_spec (Attr.shards (self_of w)) 0). }
  by rewrite Heq in Hd'.
Qed.

Lemma init_cache_without_copy_witness :
  disk_of (DataStore.init_cache E0 9 0 0 None cfg_world).2 = disk_of cfg_world.
Proof.
  rewrite (init_cache_without_copy E0 9 0 0 cfg_world).
  - reflexivity.
  - simpl. discriminate.
  - by left.
Defined.

(** X17: a cache object handed to [init_cache] is tested for truth before
    anything else, and a cache is true when it holds entries.  An empty one
    is ignored, as if none had been given, even when it is bound to another
    path.  A non-empty one bound to another path makes [init_cache] raise,
    the store being left as it was.  A non-empty one bound to the store's
    path is adopted and closed without any copy whenever the shard argument
    is 0 or equals the [shards] attribute or the old cache is empty; its own
    shard count is not looked at. *)
Theorem init_cache_supplied_cache (E : engine) (now : Z) (shards : nat)
    (timeout : Q) (c : handle) (w : world) :
  (FanoutCache.len (disk_of w) c = 0%nat ->
   DataStore.init_cache E now shards timeout (Some c) w
   = DataStore.init_cache E now shards timeout None w) /\
  ((0 < FanoutCache.len (disk_of w) c)%nat ->
   directory c <> Attr.cache_path (self_of w) ->
   DataStore.init_cache E now shards timeout (Some c) w
   = (Exc (Exception "Given DiskCache and DataStore paths do not match!"),
      w)) /\
  ((0 < FanoutCache.len (disk_of w) c)%nat ->
   directory c = Attr.cache_path (self_of w) ->
   shards = 0%nat \/ shards = Attr.shards (self_of w)
   \/ DataStore.truthy_cache (disk_of w) (Attr.cache (self_of w)) = false ->
   DataStore.init_cache E now shards timeout (Some c) w
   = (Ret tt,
      {| disk_of := disk_of w;
         self_of := Attr.with_cache (Some (with_open false c)) (self_of w) |})).
Proof.
  repeat split.
  - intros Hlen. unfold DataStore.init_cache. run. by rewrite Hlen.
  - intros Hlen%Nat.ltb_lt Hdir. unfold DataStore.init_cache. run.
    rewrite Hlen. apply String.eqb_neq in Hdir. rewrite Hdir. run.
    by destruct w.
  - intros Hlen%Nat.ltb_lt Hdir Hcase. unfold DataStore.init_cache. run.
    rewrite Hlen. apply String.eqb_eq in Hdir. rewrite Hdir. run.
    destruct (Attr.cache (self_of w)) as [old|] eqn:Hold; run; [|done].
    assert (Hno : (0 <? FanoutCache.len (disk_of w) old)%nat
                  && negb ((if (shards =? 0)%nat then Attr.shards (self_of w)
                            else shards) =? Attr.shards (self_of w))%nat
                  = false).
    { destruct Hcase as [->|[->|Ht]].
      - simpl. by rewrite Nat.eqb_refl, andb_false_r.
      - destruct (Attr.shards (self_of w) =? 0)%nat;
          by rewrite Nat.eqb_refl, andb_false_r.
      - simpl in Ht. by rewrite Ht. }
    rewrite Hno. run. done.
Qed.

Lemma init_cache_supplied_cache_witness :
  DataStore.init_cache E0 9 0 0 (Some other_handle) cfg_world
  = DataStore.init_cache E0 9 0 0 None cfg_world /\
  (DataStore.init_cache E0 9 0 0 (Some handle2) cfg_world).1 = Ret tt /\
  count <$> Attr.cache
              (self_of (DataStore.init_cache E0 9 0 0 (Some handle2)
                          cfg_world).2) = Some 2%nat.
Proof.
  split; [|split].
  - apply (init_cache_supplied_cache E0 9 0 0 other_handle cfg_world).
    reflexivity.
  - rewrite (proj2 (proj2 (init_cache_supplied_cache E0 9 0 0 handle2
                             cfg_world))); [reflexivity | | reflexivity |].
    + apply Nat.ltb_lt. reflexivity.
    + by left.
  - rewrite (proj2 (proj2 (init_cache_supplied_cache E0 9 0 0 handle2
                             cfg_world))); [reflexivity | | reflexivity |].
    + apply Nat.ltb_lt. reflexivity.
    + by left.
Defined.

(** ** A second store object on the same path *)

(** X18: what one store object wrote is there for the next.  After [set],
    constructing a new [DataStore] with the same name, delimiter, path and
    shard count returns normally, leaves the disk as it is and the new handle
    closed, and [get] on the new object returns the value written, as long
    as it has not expired. *)
Theorem init_sees_stored_entries (E : engine) (t1 t2 : Z) (w : world)
    (h : handle) (key : key_arg) (k : elt) (v X : pyval) (ttl : option Z)
    (tag : option string) (c c2 : bool) (timeout : Q) (expire : option Z)
    (tag_index : bool) :
  Attr.cache (self_of w) = Some h ->
  directory h = Attr.cache_path (self_of w) ->
  count h = Attr.shards (self_of w) ->
  Attr.shards (self_of w) <> 0%nat ->
  DataStore.encode (self_of w) key = Ret k ->
  (forall d, py_or ttl (Attr.expire (self_of w)) = Some d -> t2 < t1 + d) ->
  let w1 := (DataStore.set E t1 key v ttl tag c w).2 in
  let r := DataStore.init E t2 (Attr.name (self_of w)) (Attr.delim (self_of w))
             (Attr.cache_path (self_of w)) (Attr.shards (self_of w)) timeout
             expire tag_index (disk_of w1) in
  r.1 = Ret tt /\
  disk_of r.2 = disk_of w1 /\
  closed r.2 /\
  (DataStore.get E t2 key X false false c2 r.2).1 = Ret (Plain v).
Proof.
  intros Hcache Hdir Hcount Hn Hk Hlive w1 r. subst w1 r.
  rewrite (set_run E w h Hcache t1 key k) by done. cbn [snd disk_of settle].
  set (d1 := FanoutCache.set E t1 (disk_of w) h k v _ tag).
  unfold DataStore.init.
  rewrite init_cache_without_copy; [| |by right; right].
  2: { unfold built. simpl.
       by destruct (Nat.eqb_spec (Attr.shards (self_of w)) 0). }
  cbn [fst snd disk_of self_of]. repeat split.
  set (w2 := {| disk_of := d1; self_of := _ |}).
  assert (Hc2 : exists h2, Attr.cache (self_of w2) = Some h2
                           /\ directory h2 = directory h
                           /\ count h2 = count h).
  { eexists. split; [reflexivity|]. unfold built. simpl.
    destruct (Nat.eqb_spec (Attr.shards (self_of w)) 0); [done|].
    by rewrite Hdir, Hcount. }
  destruct Hc2 as (h2 & Hh2 & Hd2 & Hn2).
  rewrite (get_run E w2 h2 Hh2 t2 key k) by done.
  cbn [fst]. unfold FanoutCache.get, FanoutCache.find, FanoutCache.row_of,
    FanoutCache.rows, FanoutCache.index.
  rewrite Hd2, Hn2.
  pose proof (find_set E t1 t2 (disk_of w) h k v
                (py_or ttl (Attr.expire (self_of w))) tag) as Hf.
  rewrite live_written in Hf by done.
  unfold FanoutCache.find, FanoutCache.row_of, FanoutCache.rows,
    FanoutCache.index in Hf.
  fold d1 in Hf. cbn [disk_of w2]. by rewrite Hf.
Qed.

Lemma init_sees_stored_entries_witness :
  (DataStore.get E0 7 (KSeq [EStr "x"]) PNone false false true
     (DataStore.init E0 7 "cfg" ":" "cache/data" 8 (1 # 2) None true
        (disk_of (DataStore.set E0 6 (KSeq [EStr "x"]) (PInt 9) None None
                    true cfg_world).2)).2).1
  = Ret (Plain (PInt 9)).
Proof.
  apply (init_sees_stored_entries E0 6 7 cfg_world handle8 (KSeq [EStr "x"])
           (EStr "cfg:x") (PInt 9) PNone None None true true (1 # 2) None
           true eq_refl eq_refl eq_refl).
  - simpl. discriminate.
  - reflexivity.
  - intros d. simpl. discriminate.
Defined.

(** ** Keys that do not encode *)

Lemma makey_exc (self : Attr.t) (l : list elt) (e : exn) :
  DataStore.makey self l false = Exc e -> DataStore.makey_str self l = Exc e.
Proof.
  rewrite makey_as_str. destruct (DataStore.makey_str self l); [done|].
  by intros [= ->].
Qed.

(** X19: a sequence key that [makey] rejects stops every operation before
    it touches the handle: [get], [set], [add], [delete], [get_startswith]
    and [clear_keys] raise the encoder's error and leave the disk, the
    attributes and the handle exactly as they were.  A number given to
    [get_startswith] or [clear_keys] as the prefix is such a key. *)
Theorem bad_key_raises_before_io (E : engine) (now : Z) (w : world)
    (l : list elt) (e : exn) :
  DataStore.makey (self_of w) l false = Exc e ->
  (forall default et tg c,
     DataStore.get E now (KSeq l) default et tg c w = (Exc e, w)) /\
  (forall v ttl g c,
     DataStore.set E now (KSeq l) v ttl g c w = (Exc e, w)) /\
  (forall v ttl g c,
     DataStore.add E now (KSeq l) v ttl g c w = (Exc e, w)) /\
  (forall c, DataStore.delete E now (KSeq l) c w = (Exc e, w)) /\
  (forall part as_dict keys_only suffix,
     DataStore.get_startswith E now (MKey (KSeq l)) part as_dict keys_only
       suffix w = (Exc e, w)) /\
  (forall c, DataStore.clear_keys E now (MKey (KSeq l)) c w = (Exc e, w)) /\
  (forall x part as_dict keys_only suffix,
     l = [x] ->
     DataStore.get_startswith E now (MKey (KOne x)) part as_dict keys_only
       suffix w = (Exc e, w)).
Proof.
  intros He%makey_exc.
  assert (Henc : DataStore.encode (self_of w) (KSeq l) = Exc e)
    by (unfold DataStore.encode; by rewrite He).
  assert (Hq : forall part as_dict keys_only suffix,
            DataStore.get_startswith E now (MKey (KSeq l)) part as_dict
              keys_only suffix w = (Exc e, w)).
  { intros. unfold DataStore.get_startswith. run. by rewrite He. }
  repeat split; intros.
  - unfold DataStore.get, DataStore.encode. run. by rewrite He.
  - by apply set_raises.
  - by apply set_raises.
  - unfold DataStore.delete, DataStore.encode. run. by rewrite He.
  - apply Hq.
  - unfold DataStore.clear_keys, mbind, M_bind. by rewrite Hq.
  - subst l. unfold DataStore.get_startswith. run. by rewrite He.
Qed.

Lemma bad_key_raises_before_io_witness :
  DataStore.get_startswith E0 5 (MKey (KOne (ENum 7))) false false false false
    cfg_world
  = (Exc AttributeError, cfg_world).
Proof.
  destruct (bad_key_raises_before_io E0 5 cfg_world [ENum 7] AttributeError
              eq_refl) as (_ & _ & _ & _ & _ & _ & Hone).
  apply (Hone (ENum 7) false false false false eq_refl).
Defined.
